(** * Verification of the PDF extraction pipeline

    Shallow embedding of the job/task repository ([utils/tasks_repository.py]),
    the orchestrator ([main.py]), the extraction module
    ([extraction/extraction.py]), the directory manager
    ([utils/directory_manager.py]) and the pipeline driver ([pipeline.py]). *)

From Stdlib Require Import String Ascii List Bool Arith Lia.
From Stdlib Require Import Decimal DecimalString DecimalNat.
From Stdlib Require Import Sorted Permutation.
Import ListNotations.
Open Scope string_scope.

(* ================================================================= *)
(** ** The relational store

    Rows are records; a table is a list of rows in storage order.  [NOW()]
    reads the store's clock, and every committed write transaction advances
    it.  [gen_random_uuid()] is modelled by a seed that yields a fresh
    identifier per insert.  The [trace] field records the calls made to the
    job status-transition functions with their arguments, so that the
    orchestrator's observable sequence of job writes can be stated. *)

Module Db.

Record Job := mkJob {
  job_id : string;
  job_status : string;
  job_demandNoteId : string;
  job_updateTs : nat
}.

Record DemandFile := mkDemandFile {
  df_id : string;
  df_demandNoteId : string;
  df_fileName : string;
  df_filePath : option string;      (* NULL = None *)
  df_summaryStatus : string;
  df_createdAt : nat
}.

Record Task := mkTask {
  t_id : string;
  t_jobId : string;
  t_demandFileId : string;
  t_fileName : string;
  t_filePath : option string;
  t_outputSummary : string;
  t_status : string;
  t_pid : option nat;
  t_startTs : option nat;
  t_endTs : option nat;
  t_editedSummaryTs : option nat;
  t_outputFilePath : option string;
  t_createdAt : nat;
  t_updatedAt : nat
}.

(** Calls to the job status-transition functions, with their arguments. *)
Inductive JobCall :=
| CallJobInProgress (jid : string)
| CallJobCompleted (jid : string)
| CallJobFailed (jid : string) (reason : option string).

Record DB := mkDB {
  jobs : list Job;
  demand_files : list DemandFile;
  tasks : list Task;
  clock : nat;
  uuid_seed : nat;
  trace : list JobCall
}.

Definition nat_to_string (n : nat) : string :=
  NilZero.string_of_uint (Nat.to_uint n).

Definition DUMMY_TASK_SUMMARY : string :=
  "Hey! This is a dummy summary for your file. " ++
  "We're working hard to make it real.".

(** Store updates. *)
Definition with_jobs (s : DB) (js : list Job) : DB :=
  mkDB js (demand_files s) (tasks s) (S (clock s)) (uuid_seed s) (trace s).
Definition with_demand_files (s : DB) (ds : list DemandFile) : DB :=
  mkDB (jobs s) ds (tasks s) (S (clock s)) (uuid_seed s) (trace s).
Definition with_tasks (s : DB) (ts : list Task) : DB :=
  mkDB (jobs s) (demand_files s) ts (S (clock s)) (uuid_seed s) (trace s).
Definition log_call (s : DB) (c : JobCall) : DB :=
  mkDB (jobs s) (demand_files s) (tasks s) (clock s) (uuid_seed s) (trace s ++ [c]).

(** [UPDATE "Job" SET "status" = st, "updateTs" = NOW() WHERE "id" = jid] *)
Definition set_job_status (jid st : string) (now : nat) (j : Job) : Job :=
  if String.eqb (job_id j) jid
  then mkJob (job_id j) st (job_demandNoteId j) now
  else j.

Definition update_job_status (s : DB) (jid st : string) : DB :=
  with_jobs s (map (set_job_status jid st (clock s)) (jobs s)).

(** [SELECT * FROM "Job" WHERE "id" = jid] with [fetchone]. *)
Definition get_job_by_id (s : DB) (jid : string) : option Job :=
  find (fun j => String.eqb (job_id j) jid) (jobs s).

Definition mark_job_in_progress (s : DB) (jid : string) : DB :=
  update_job_status (log_call s (CallJobInProgress jid)) jid "in_progress".

(** The [reason] argument is accepted but not written: the UPDATE only sets
    [status] and [updateTs]. *)
Definition mark_job_failed (s : DB) (jid : string) (reason : option string) : DB :=
  update_job_status (log_call s (CallJobFailed jid reason)) jid "failed".

(** [FROM "DemandFile" df JOIN "Job" j ON j."demandNoteId" = df."demandNoteId"
     WHERE j."id" = jid]: one output row per matching pair. *)
Definition job_demand_files (s : DB) (jid : string) : list DemandFile :=
  flat_map (fun j =>
    if String.eqb (job_id j) jid
    then filter (fun df => String.eqb (df_demandNoteId df) (job_demandNoteId j))
                (demand_files s)
    else []) (jobs s).

Definition is_summarized (df : DemandFile) : bool :=
  String.eqb (df_summaryStatus df) "summarized".
Definition is_not_summarized (df : DemandFile) : bool :=
  String.eqb (df_summaryStatus df) "not_summarized".

(** The file-summarization variant of [check_all_demand_files_summarized]. *)
Definition check_all_demand_files_summarized (s : DB) (jid : string) : bool :=
  let rows := job_demand_files s jid in
  let total := length rows in
  let summarized := length (filter is_summarized rows) in
  if Nat.eqb total 0 then false else Nat.eqb summarized total.

(** [mark_job_completed] as bound at module level: the second definition
    (file-summarization variant), which shadows the task-based one. *)
Definition mark_job_completed (s : DB) (jid : string) : DB * bool :=
  if negb (check_all_demand_files_summarized s jid) then (s, false)
  else (update_job_status (log_call s (CallJobCompleted jid)) jid "completed", true).

(** [check_and_update_job_status] as bound at module level: the second
    definition (lines 441-475), which shadows the task-based one. *)
Definition check_and_update_job_status (s : DB) (jid : string) : DB :=
  let rows := job_demand_files s jid in
  let total := length rows in
  let summarized := length (filter is_summarized rows) in
  if Nat.eqb total 0 then s
  else if Nat.eqb summarized total then fst (mark_job_completed s jid)
  else s.

(** [create_tasks_for_job]: one INSERT per selected row, no existence check. *)
Definition new_task (s : DB) (jid : string) (df : DemandFile) : Task :=
  mkTask ("uuid-" ++ nat_to_string (uuid_seed s)) jid (df_id df) (df_fileName df)
         (df_filePath df) DUMMY_TASK_SUMMARY "pending" None None None None None
         (clock s) (clock s).

Definition insert_task (s : DB) (t : Task) : DB :=
  mkDB (jobs s) (demand_files s) (tasks s ++ [t]) (clock s) (S (uuid_seed s)) (trace s).

Definition create_tasks_for_job (s : DB) (jid : string) : DB :=
  let rows := filter is_not_summarized (job_demand_files s jid) in
  let s' := fold_left (fun acc df => insert_task acc (new_task acc jid df)) rows s in
  mkDB (jobs s') (demand_files s') (tasks s') (S (clock s')) (uuid_seed s') (trace s').

(** [ORDER BY df."createdAt" ASC]: a stable insertion sort. *)
Fixpoint insert_by_created (x : DemandFile) (l : list DemandFile) : list DemandFile :=
  match l with
  | [] => [x]
  | y :: l' => if Nat.ltb (df_createdAt x) (df_createdAt y) then x :: l
               else y :: insert_by_created x l'
  end.

Definition sort_by_created (l : list DemandFile) : list DemandFile :=
  fold_left (fun acc x => insert_by_created x acc) l [].

Definition get_demand_files_for_job (s : DB) (jid : string) : list DemandFile :=
  sort_by_created (filter is_not_summarized (job_demand_files s jid)).

(** [SELECT * FROM "Task" WHERE "demandFileId" = dfid] with [fetchone]. *)
Definition get_task_by_demand_file_id (s : DB) (dfid : string) : option Task :=
  find (fun t => String.eqb (t_demandFileId t) dfid) (tasks s).

Definition set_task_in_progress (tid : string) (pid now : nat) (t : Task) : Task :=
  if String.eqb (t_id t) tid
  then mkTask (t_id t) (t_jobId t) (t_demandFileId t) (t_fileName t) (t_filePath t)
              (t_outputSummary t) "in_progress" (Some pid) (Some now) (t_endTs t)
              (t_editedSummaryTs t) (t_outputFilePath t) (t_createdAt t) now
  else t.

Definition mark_task_in_progress (s : DB) (tid : string) (pid : nat) : DB :=
  with_tasks s (map (set_task_in_progress tid pid (clock s)) (tasks s)).

Definition set_task_completed (tid out : string) (now : nat) (t : Task) : Task :=
  if String.eqb (t_id t) tid
  then mkTask (t_id t) (t_jobId t) (t_demandFileId t) (t_fileName t) (t_filePath t)
              (t_outputSummary t) "completed" (t_pid t) (t_startTs t) (Some now)
              (Some now) (Some out) (t_createdAt t) now
  else t.

Definition mark_task_completed (s : DB) (tid out : string) (num_pages : nat)
    (jid : string) : DB :=
  let s1 := with_tasks s (map (set_task_completed tid out (clock s)) (tasks s)) in
  check_and_update_job_status s1 jid.

Definition set_task_failed (tid : string) (now : nat) (t : Task) : Task :=
  if String.eqb (t_id t) tid
  then mkTask (t_id t) (t_jobId t) (t_demandFileId t) (t_fileName t) (t_filePath t)
              (t_outputSummary t) "failed" (t_pid t) (t_startTs t) (Some now)
              (t_editedSummaryTs t) (t_outputFilePath t) (t_createdAt t) now
  else t.

Definition mark_task_failed (s : DB) (tid jid : string) (reason : option string) : DB :=
  let s1 := with_tasks s (map (set_task_failed tid (clock s)) (tasks s)) in
  check_and_update_job_status s1 jid.

(** [UPDATE "DemandFile" SET "summaryStatus" = 'summarized', "filePath" = out
     WHERE "id" = dfid] *)
Definition set_df_summarized (dfid out : string) (df : DemandFile) : DemandFile :=
  if String.eqb (df_id df) dfid
  then mkDemandFile (df_id df) (df_demandNoteId df) (df_fileName df) (Some out)
                    "summarized" (df_createdAt df)
  else df.

Definition mark_demand_file_summarized (s : DB) (dfid out : string) : DB :=
  with_demand_files s (map (set_df_summarized dfid out) (demand_files s)).

(** The path query of [fetch_pdf_from_database]:
    [SELECT COALESCE(df."filePath", t."filePath") FROM "DemandFile" df
     LEFT JOIN "Task" t ON t."demandFileId" = df."id" WHERE df."id" = dfid
     LIMIT 1].  [None] = no row; [Some None] = a row whose path is NULL. *)
Definition coalesce (a b : option string) : option string :=
  match a with Some _ => a | None => b end.

Definition left_join_rows (s : DB) (df : DemandFile) : list (option string) :=
  match filter (fun t => String.eqb (t_demandFileId t) (df_id df)) (tasks s) with
  | [] => [coalesce (df_filePath df) None]
  | ts => map (fun t => coalesce (df_filePath df) (t_filePath t)) ts
  end.

Definition fetch_file_path_query (s : DB) (dfid : string) : option (option string) :=
  hd_error (flat_map (left_join_rows s)
             (filter (fun df => String.eqb (df_id df) dfid) (demand_files s))).

End Db.

(* ================================================================= *)
(** ** The orchestrator ([main.py])

    [process_pdf_extraction] is a parameter: it reads the store and either
    returns [(base_path, pages_extracted)] (the dictionary with
    [success = True], the only dictionary it ever returns) or raises with a
    message.  Store operations do not raise in this model, so the outer
    [except] of [main] is not reachable here; [time.sleep] and the prints
    leave the store unchanged. *)

Module Orchestrator.
Import Db.

Inductive MainExit := ExitCode1 | Returned.

Section Main.
Variable process_pdf_extraction : DB -> string -> (string * nat) + string.
Variable pid : nat.

(** One iteration of the loop over the fetched demand files. *)
Definition process_demand_file (jid : string) (s : DB) (df : DemandFile) : DB :=
  match get_task_by_demand_file_id s (df_id df) with
  | None => s
  | Some task =>
      let s1 := mark_task_in_progress s (t_id task) pid in
      match process_pdf_extraction s1 (df_id df) with
      | inl (base_path, pages) =>
          let s2 := mark_task_completed s1 (t_id task) base_path pages jid in
          mark_demand_file_summarized s2 (df_id df) base_path
      | inr msg => mark_task_failed s1 (t_id task) jid (Some msg)
      end
  end.

Definition main_job (jid : string) (s : DB) : MainExit * DB :=
  match get_job_by_id s jid with
  | None => (Returned, s)
  | Some _ =>
      let s1 := mark_job_in_progress s jid in
      let s2 := create_tasks_for_job s1 jid in
      match get_demand_files_for_job s2 jid with
      | [] => (Returned, mark_job_failed s2 jid (Some "No demand files found for this job"))
      | dfs =>
          let s3 := fold_left (process_demand_file jid) dfs s2 in
          (Returned, check_and_update_job_status s3 jid)
      end
  end.

(** [sys.argv]: the job identifier is [argv[1]]. *)
Definition main (argv : list string) (s : DB) : MainExit * DB :=
  match argv with
  | _ :: jid :: _ => main_job jid s
  | _ => (ExitCode1, s)
  end.

End Main.
End Orchestrator.

(* ================================================================= *)
(** ** Job status as the spec states it *)

Module SpecStatus.

Definition is_terminal (st : string) : bool :=
  String.eqb st "completed" || String.eqb st "failed".

(** Job status from the task statuses. *)
Definition job_status_of_tasks (sts : list string) : string :=
  if forallb (fun st => String.eqb st "completed") sts then "completed"
  else if forallb is_terminal sts && existsb (fun st => String.eqb st "failed") sts
  then "failed" else "in_progress".

(** Job status from the source files' [summaryStatus] (no failure value). *)
Definition job_status_of_files (sts : list string) : string :=
  if forallb (fun st => String.eqb st "summarized") sts then "completed"
  else "in_progress".

End SpecStatus.

(* ================================================================= *)
(** ** Extraction ([extraction/extraction.py], [extract_text_by_page])

    PyMuPDF is a parameter: [fitz_open] parses the byte string into a
    document or raises ([None]); [doc_len] is [len(pdf_document)];
    [load_page] is [pdf_document[i]] and [get_text] is [page.get_text()],
    each of which may raise ([None]).  The open document handles form a
    stack of handle numbers: [fitz.open] pushes a fresh one and [close]
    removes it. *)

Module Extraction.

Record Handles := mkHandles { next_handle : nat; open_handles : list nat }.

Inductive Result (A : Type) := Ok (a : A) | Raised.
Arguments Ok {A} a.
Arguments Raised {A}.

Fixpoint remove_first (h : nat) (l : list nat) : list nat :=
  match l with
  | [] => []
  | x :: l' => if Nat.eqb x h then l' else x :: remove_first h l'
  end.

Definition close (h : nat) (hs : Handles) : Handles :=
  mkHandles (next_handle hs) (remove_first h (open_handles hs)).

Section Extract.
Variables Doc Page : Type.
Variable fitz_open : list Byte.byte -> option Doc.
Variable doc_len : Doc -> nat.
Variable load_page : Doc -> nat -> option Page.
Variable get_text : Page -> option string.

(** The body of the [try]: [for page_num in range(len(pdf_document))]. *)
Fixpoint extract_pages (d : Doc) (idx : list nat) (page_texts : list string)
  : option (list string) :=
  match idx with
  | [] => Some page_texts
  | page_num :: rest =>
      match load_page d page_num with
      | None => None
      | Some page =>
          match get_text page with
          | None => None
          | Some text => extract_pages d rest (page_texts ++ [text])%list
          end
      end
  end.

Definition extract_text_by_page (pdf_content : list Byte.byte) (hs : Handles)
  : Result (list string) * Handles :=
  match fitz_open pdf_content with
  | None => (Raised, hs)
  | Some d =>
      let h := next_handle hs in
      let hs1 := mkHandles (S h) (h :: open_handles hs) in
      let body := extract_pages d (seq 0 (doc_len d)) [] in
      let hs2 := close h hs1 in          (* finally: pdf_document.close() *)
      match body with
      | Some page_texts => (Ok page_texts, hs2)
      | None => (Raised, hs2)
      end
  end.

(** Text of page [i], as the loop obtains it. *)
Definition page_text (d : Doc) (i : nat) : option string :=
  match load_page d i with
  | Some p => get_text p
  | None => None
  end.

End Extract.
End Extraction.

(* ================================================================= *)
(** ** The page-extraction algorithm as the spec states it

    Modelled from the spec: the block ordering, Normalizer and noise filter
    of the spec's Extraction Engine and Text Normalizer (no code under
    [src/] implements them).  A page carries its positioned blocks and the
    plain text PyMuPDF's [page.get_text()] returns for it (blocks in content
    stream order, each line ended by a newline). *)

Module SpecExtraction.

Record Block := mkBlock { bx : nat; by_ : nat; btext : string }.
Record PdfPage := mkPdfPage { plain_text : string; blocks : list Block }.

(** Stable sort by (vertical, horizontal) position. *)
Definition block_lt (a b : Block) : bool :=
  Nat.ltb (by_ a) (by_ b) || (Nat.eqb (by_ a) (by_ b) && Nat.ltb (bx a) (bx b)).

Fixpoint insert_block (x : Block) (l : list Block) : list Block :=
  match l with
  | [] => [x]
  | y :: l' => if block_lt x y then x :: l else y :: insert_block x l'
  end.

Definition sort_blocks (l : list Block) : list Block :=
  fold_left (fun acc x => insert_block x acc) l [].

Definition nl : ascii := ascii_of_nat 10.
Definition tab : ascii := ascii_of_nat 9.
Definition cr : ascii := ascii_of_nat 13.

Definition is_lower (c : ascii) : bool := ("a" <=? c)%char && (c <=? "z")%char.
Definition is_upper (c : ascii) : bool := ("A" <=? c)%char && (c <=? "Z")%char.
Definition is_alpha (c : ascii) : bool := is_lower c || is_upper c.
Definition is_digit (c : ascii) : bool := ("0" <=? c)%char && (c <=? "9")%char.
Definition is_word (c : ascii) : bool := is_alpha c || is_digit c || Ascii.eqb c "_".
Definition is_hspace (c : ascii) : bool := Ascii.eqb c " " || Ascii.eqb c tab.
Definition is_space (c : ascii) : bool := is_hspace c || Ascii.eqb c nl || Ascii.eqb c cr.
Definition is_vowel (c : ascii) : bool :=
  existsb (Ascii.eqb c) (list_ascii_of_string "aeiouAEIOU").

(** Runs of horizontal whitespace become one space. *)
Fixpoint collapse_hspace (prev_space : bool) (l : list ascii) : list ascii :=
  match l with
  | [] => []
  | c :: r => if is_hspace c
              then (if prev_space then collapse_hspace true r
                    else " "%char :: collapse_hspace true r)
              else c :: collapse_hspace false r
  end.

(** Runs of three or more newlines become exactly two. *)
Fixpoint collapse_newlines (run : nat) (l : list ascii) : list ascii :=
  match l with
  | [] => []
  | c :: r => if Ascii.eqb c nl
              then (if Nat.leb 2 run then collapse_newlines (S run) r
                    else c :: collapse_newlines (S run) r)
              else c :: collapse_newlines 0 r
  end.

(** A bar between two word characters becomes "I". *)
Fixpoint fix_bar (prev : option ascii) (l : list ascii) : list ascii :=
  match l with
  | [] => []
  | c :: r =>
      let next_word := match r with n :: _ => is_word n | [] => false end in
      let prev_word := match prev with Some p => is_word p | None => false end in
      let c' := if Ascii.eqb c "|" && prev_word && next_word then "I"%char else c in
      c' :: fix_bar (Some c) r
  end.

(** A leading "8" or "H" followed by D/DD/DD becomes "0". *)
Definition date_follows (r : list ascii) : bool :=
  match r with
  | d1 :: s1 :: d2 :: d3 :: s2 :: d4 :: d5 :: _ =>
      is_digit d1 && Ascii.eqb s1 "/" && is_digit d2 && is_digit d3 &&
      Ascii.eqb s2 "/" && is_digit d4 && is_digit d5
  | _ => false
  end.

Fixpoint fix_date (prev : option ascii) (l : list ascii) : list ascii :=
  match l with
  | [] => []
  | c :: r =>
      let leading := match prev with Some p => negb (is_word p) | None => true end in
      let c' := if (Ascii.eqb c "8" || Ascii.eqb c "H") && leading && date_follows r
                then "0"%char else c in
      c' :: fix_date (Some c) r
  end.

(** A space between a lowercase and an uppercase letter, and between a
    letter and a digit in either order. *)
Fixpoint split_words (l : list ascii) : list ascii :=
  match l with
  | c :: ((n :: _) as r) =>
      if (is_lower c && is_upper n) || (is_alpha c && is_digit n) ||
         (is_digit c && is_alpha n)
      then c :: " "%char :: split_words r
      else c :: split_words r
  | _ => l
  end.

Fixpoint drop_space (l : list ascii) : list ascii :=
  match l with
  | c :: r => if is_space c then drop_space r else l
  | [] => []
  end.

Definition trim (l : list ascii) : list ascii :=
  List.rev (drop_space (List.rev (drop_space l))).

Definition normalize (s : string) : string :=
  let l := list_ascii_of_string s in
  let l := collapse_newlines 0 (collapse_hspace false l) in
  let l := fix_date None (fix_bar None l) in
  let l := split_words l in
  string_of_list_ascii (trim l).

(** Noise: never under 5 characters; otherwise alphabetic ratio < 0.4, or
    vowel ratio < 0.2 with length > 12. *)
Definition is_noise (s : string) : bool :=
  let l := list_ascii_of_string s in
  let n := length l in
  let a := length (filter is_alpha l) in
  let v := length (filter is_vowel l) in
  if Nat.ltb n 5 then false
  else Nat.ltb (5 * a) (2 * n) || (Nat.ltb (5 * v) n && Nat.ltb 12 n).

Fixpoint join_lines (l : list string) : string :=
  match l with
  | [] => ""
  | [x] => x
  | x :: r => x ++ String nl (join_lines r)
  end.

Definition spec_page_text (p : PdfPage) : string :=
  join_lines
    (flat_map (fun b =>
       if String.eqb (btext b) "" then []
       else let t := normalize (btext b) in
            if String.eqb t "" then [] else if is_noise t then [] else [t])
       (sort_blocks (blocks p))).

End SpecExtraction.

(* ================================================================= *)
(** ** Python string helpers *)

Module PyStr.

Definition slash : ascii := "/"%char.

Definition startswith_slash (s : string) : bool :=
  match s with String c _ => Ascii.eqb c slash | EmptyString => false end.

(** [s.lstrip('/')] *)
Fixpoint lstrip_slash (s : string) : string :=
  match s with
  | String c r => if Ascii.eqb c slash then lstrip_slash r else s
  | EmptyString => EmptyString
  end.

(** [sub in s] *)
Definition contains (sub s : string) : bool :=
  match String.index 0 sub s with Some _ => true | None => false end.

(** [a or b] on optional strings, and the truth test [if x:]. *)
Definition py_or (a b : option string) : option string :=
  match a with
  | Some x => if String.eqb x "" then b else a
  | None => b
  end.

Definition truthy (a : option string) : option string :=
  match a with
  | Some x => if String.eqb x "" then None else Some x
  | None => None
  end.

End PyStr.

(* ================================================================= *)
(** ** A POSIX [pathlib] model, used to run the path code on concrete inputs

    [Path(s)] splits on "/" and drops empty and "." components; [/] with an
    absolute right operand returns it; [resolve()] is taken on a tree without
    symbolic links, where it makes the path absolute and folds "..". *)

Module PosixPath.
Import PyStr.

Record PPath := mkPPath { p_abs : bool; p_parts : list string }.

Fixpoint split_slash_aux (cur : string) (s : string) : list string :=
  match s with
  | EmptyString => [cur]
  | String c r => if Ascii.eqb c slash then cur :: split_slash_aux "" r
                  else split_slash_aux (cur ++ String c "") r
  end.

Definition parse (s : string) : PPath :=
  mkPPath (startswith_slash s)
          (filter (fun x => negb (String.eqb x "" || String.eqb x ".")) (split_slash_aux "" s)).

Fixpoint join_parts (l : list string) : string :=
  match l with
  | [] => ""
  | [x] => x
  | x :: r => x ++ "/" ++ join_parts r
  end.

Definition to_str (p : PPath) : string :=
  if p_abs p then "/" ++ join_parts (p_parts p)
  else match p_parts p with [] => "." | l => join_parts l end.

Definition join (p : PPath) (s : string) : PPath :=
  let q := parse s in
  if p_abs q then q else mkPPath (p_abs p) (p_parts p ++ p_parts q).

Definition parent (p : PPath) : PPath := mkPPath (p_abs p) (removelast (p_parts p)).

Definition fold_dotdot (parts : list string) : list string :=
  List.rev (fold_left (fun acc x => if String.eqb x ".." then tl acc else x :: acc) parts []).

Definition resolve (cwd : PPath) (p : PPath) : PPath :=
  let a := if p_abs p then p else mkPPath (p_abs cwd) (p_parts cwd ++ p_parts p) in
  mkPPath true (fold_dotdot (p_parts a)).

Definition PPath_eqb (p q : PPath) : bool :=
  Bool.eqb (p_abs p) (p_abs q) &&
  (fix eql (a b : list string) := match a, b with
     | [], [] => true
     | x :: a', y :: b' => String.eqb x y && eql a' b'
     | _, _ => false end) (p_parts p) (p_parts q).

End PosixPath.

(* ================================================================= *)
(** ** Input path resolution ([fetch_pdf_from_database])

    [pathlib] and the file system are parameters: [Path_of] is [Path(s)],
    [path_str] is [str(p)], [join] is [/], [parent] is [.parent], [cwd] is
    [Path.cwd()] (and [os.getcwd()] is its string), [exists_p] is
    [.exists()], [read_bytes] is [open(p, "rb").read()] (raising, e.g. on a
    directory, is [None]), [getenv] is [os.getenv]. *)

Module Resolver.
Import PyStr.

Inductive FetchError :=
| ValueError (msg : string)
| FileNotFoundError (msg : string)
| OpenError (path : string).

Section Resolve.
Variable Path : Type.
Variable Path_of : string -> Path.
Variable path_str : Path -> string.
Variable join : Path -> string -> Path.
Variable parent : Path -> Path.
Variable cwd : Path.
Variable exists_p : Path -> bool.
Variable read_bytes : Path -> option (list Byte.byte).
Variable getenv : string -> option string.

(** [(attempted_paths, pdf_path)] *)
Definition RState : Type := (list string * option Path)%type.

Definition attempt (st : RState) (test_path : Path) : RState :=
  ((fst st ++ [path_str test_path])%list,
   if exists_p test_path then Some test_path else snd st).

(** A [for] loop over candidates that [break]s at the first existing one. *)
Fixpoint attempt_until (ps : list Path) (st : RState) : RState :=
  match ps with
  | [] => st
  | p :: rest => let st' := attempt st p in
                 if exists_p p then st' else attempt_until rest st'
  end.

Definition ancestor (level : nat) : Path := Nat.iter level parent cwd.

Definition uploads_base : option string :=
  truthy (py_or (getenv "UPLOADS_BASE_DIR") (getenv "FILE_STORAGE_PATH")).

Definition resolve_pdf_path (file_path : string) : RState :=
  (* Strategy 1 *)
  let st1 := attempt ([], None) (Path_of file_path) in
  (* Strategy 2 *)
  let st2 :=
    match snd st1 with
    | Some _ => st1
    | None =>
        match uploads_base with
        | Some base =>
            let relative_path :=
              if startswith_slash file_path then lstrip_slash file_path else file_path in
            attempt st1 (join (Path_of base) relative_path)
        | None => st1
        end
    end in
  (* Strategy 3 *)
  match snd st2 with
  | Some _ => st2
  | None =>
      if startswith_slash file_path then
        let relative_path := lstrip_slash file_path in
        let st3 := attempt st2 (Path_of relative_path) in
        let st4 := match snd st3 with
                   | Some _ => st3
                   | None => attempt st3 (join cwd relative_path)
                   end in
        let st5 := match snd st4 with
                   | Some _ => st4
                   | None => attempt_until
                               (map (fun level => join (ancestor level) relative_path)
                                    (seq 0 4)) st4
                   end in
        match snd st5 with
        | Some _ => st5
        | None =>
            if contains "legasys-dev" (path_str cwd) || contains "legasys" (path_str cwd)
            then attempt_until
                   (flat_map (fun level =>
                      [join (ancestor level) relative_path;
                       join (parent (ancestor level)) relative_path]) (seq 1 3)) st5
            else st5
        end
      else st2
  end.

Definition newline : string := String (ascii_of_nat 10) "".

Fixpoint enum_lines (i : nat) (paths : list string) : string :=
  match paths with
  | [] => ""
  | p :: rest => "  " ++ Db.nat_to_string i ++ ". " ++ p ++ newline ++ enum_lines (S i) rest
  end.

Definition not_found_message (attempted : list string) (file_path : string) : string :=
  "PDF file not found. Attempted " ++ Db.nat_to_string (length attempted) ++ " paths:" ++
  newline ++
  enum_lines 1 (firstn 10 attempted) ++
  (if Nat.ltb 10 (length attempted)
   then "  ... and " ++ Db.nat_to_string (length attempted - 10) ++ " more paths" ++ newline
   else "") ++
  newline ++ "Original path from DB: " ++ file_path ++ newline ++
  "Current working directory: " ++ path_str cwd ++ newline ++
  newline ++ "Tip: Set UPLOADS_BASE_DIR environment variable to the base directory " ++
  "containing 'uploads' folder.".

(** The part of [fetch_pdf_from_database] after the path query. *)
Definition fetch_pdf_from_path (file_path : string) : list Byte.byte + FetchError :=
  let (attempted_paths, pdf_path) := resolve_pdf_path file_path in
  match pdf_path with
  | Some p =>
      if exists_p p then
        match read_bytes p with
        | Some content => inl content
        | None => inr (OpenError (path_str p))
        end
      else inr (FileNotFoundError (not_found_message attempted_paths file_path))
  | None => inr (FileNotFoundError (not_found_message attempted_paths file_path))
  end.

Definition fetch_pdf_from_database (s : Db.DB) (demand_file_id : string)
  : list Byte.byte + FetchError :=
  match Db.fetch_file_path_query s demand_file_id with
  | None => inr (ValueError ("DemandFile with id " ++ demand_file_id ++ " not found"))
  | Some None =>
      inr (ValueError ("File path not found for DemandFile " ++ demand_file_id))
  | Some (Some file_path) =>
      if String.eqb file_path "" then
        inr (ValueError ("File path not found for DemandFile " ++ demand_file_id))
      else fetch_pdf_from_path file_path
  end.

(** The fallback chain in the order the spec lists it. *)
Definition candidate_chain (file_path : string) : list Path :=
  let relative_path := lstrip_slash file_path in
  [Path_of file_path] ++
  match uploads_base with
  | Some base =>
      [join (Path_of base)
            (if startswith_slash file_path then relative_path else file_path)]
  | None => []
  end ++
  (if startswith_slash file_path then
     [Path_of relative_path; join cwd relative_path] ++
     map (fun level => join (ancestor level) relative_path) (seq 0 4) ++
     (if contains "legasys-dev" (path_str cwd) || contains "legasys" (path_str cwd)
      then flat_map (fun level =>
             [join (ancestor level) relative_path;
              join (parent (ancestor level)) relative_path]) (seq 1 3)
      else [])
   else []).

(** The chain up to and including its first existing candidate. *)
Fixpoint upto_first (l : list Path) : list Path :=
  match l with
  | [] => []
  | p :: rest => p :: (if exists_p p then [] else upto_first rest)
  end.

End Resolve.
End Resolver.

(* ================================================================= *)
(** ** Output path computation ([get_output_base_path])

    [pathlib] is a parameter as for the resolver; [resolve_p] is
    [.resolve()] and [is_absolute] is [.is_absolute()]; [os_name] is
    [os.name].  No file-system test occurs in this function. *)

Module OutputPath.
Import Db PyStr.

(** [re.sub] replacing each of the characters < > : double-quote / backslash
    | ? * by an underscore. *)
Definition invalid_chars : list ascii :=
  ["<"; ">"; ":"; ascii_of_nat 34; "/"; ascii_of_nat 92; "|"; "?"; "*"]%char.

Definition sanitize_chars (s : string) : string :=
  string_of_list_ascii
    (map (fun c => if existsb (Ascii.eqb c) invalid_chars then "_"%char else c)
         (list_ascii_of_string s)).

(** [if '.' in s: s = s.rsplit('.', 1)[0]]: on the reversed characters,
    drop everything up to and including the first dot. *)
Fixpoint drop_through_dot (r : list ascii) : list ascii :=
  match r with
  | [] => []
  | c :: r' => if Ascii.eqb c "."%char then r' else drop_through_dot r'
  end.

Definition strip_extension (s : string) : string :=
  let l := list_ascii_of_string s in
  if existsb (Ascii.eqb "."%char) l
  then string_of_list_ascii (List.rev (drop_through_dot (List.rev l)))
  else s.

(** The query: [t."jobId"], [COALESCE(t."fileName", df."fileName")] and
    [t."outputFilePath"] of the first row of [DemandFile LEFT JOIN Task]. *)
Definition output_row (s : DB) (df : DemandFile)
  : list (option string * option string * option string) :=
  match filter (fun t => String.eqb (t_demandFileId t) (df_id df)) (tasks s) with
  | [] => [(None, Some (df_fileName df), None)]
  | ts => map (fun t => (Some (t_jobId t), Some (t_fileName t), t_outputFilePath t)) ts
  end.

Definition output_path_query (s : DB) (dfid : string)
  : option (option string * option string * option string) :=
  hd_error (flat_map (output_row s)
             (filter (fun df => String.eqb (df_id df) dfid) (demand_files s))).

Section Output.
Variable Path : Type.
Variable Path_of : string -> Path.
Variable join : Path -> string -> Path.
Variable resolve_p : Path -> Path.
Variable is_absolute : Path -> bool.
Variable cwd : Path.
Variable getenv : string -> option string.
Variable os_name : string.

Definition outputs_base : option string :=
  truthy (py_or (getenv "OUTPUTS_BASE_DIR") (getenv "FILE_STORAGE_PATH")).

Definition get_output_base_path (s : DB) (demand_file_id : string) : Path + string :=
  match output_path_query s demand_file_id with
  | None => inr ("DemandFile with id " ++ demand_file_id ++ " not found")
  | Some (job_id, file_name, output_file_path) =>
      match truthy job_id with
      | None => inr ("Job ID not found for DemandFile " ++ demand_file_id)
      | Some job_id =>
      match truthy file_name with
      | None => inr ("File name not found for DemandFile " ++ demand_file_id)
      | Some file_name =>
          let sanitized_file_name := strip_extension (sanitize_chars file_name) in
          match truthy output_file_path with
          | Some out =>
              inl (match outputs_base with
                   | Some base =>
                       let relative_path :=
                         if startswith_slash out then lstrip_slash out else out in
                       resolve_p (join (Path_of base) relative_path)
                   | None =>
                       if is_absolute (Path_of out) then resolve_p (Path_of out)
                       else if startswith_slash out && String.eqb os_name "nt"
                       then resolve_p (join cwd (lstrip_slash out))
                       else if startswith_slash out
                       then resolve_p (join cwd (lstrip_slash out))
                       else resolve_p (join cwd out)
                   end)
          | None =>
              let constructed_path :=
                "outputs/" ++ job_id ++ "/" ++ sanitized_file_name in
              inl (match outputs_base with
                   | Some base => resolve_p (join (Path_of base) constructed_path)
                   | None => resolve_p (join cwd constructed_path)
                   end)
          end
      end
      end
  end.

End Output.
End OutputPath.

(* ================================================================= *)
(** ** Page writer ([format_page_text], [create_subdirectories],
    [save_text_to_file] and step 5 of [process_pdf_extraction])

    The file system is a map from paths to entries: a regular file with
    its bytes, or a directory.  [lineage p] lists the directories that
    [p.mkdir(parents=True, exist_ok=True)] visits, from the root down to
    [p] itself; [resolve_p] is [.resolve()]; [utf8_encode] is the UTF-8
    encoder used by [open(..., encoding="utf-8")]. *)

Module Writer.
Import Db.

Inductive Entry : Type :=
| FileE (contents : list Byte.byte)
| DirE.

Definition newline : string := String (ascii_of_nat 10) EmptyString.

(** [format_page_text]: the two f-string markers around the text. *)
Definition format_page_text (page_num : nat) (text : string) : string :=
  "=== PAGE " ++ nat_to_string page_num ++ " START ===" ++ newline ++
  text ++
  newline ++ "=== PAGE " ++ nat_to_string page_num ++ " END ===" ++ newline.

Fixpoint zeros (k : nat) : string :=
  match k with
  | 0 => EmptyString
  | S k => String "0" (zeros k)
  end.

(** [{n:03d}]: the decimal digits, left-padded with zeros to width 3. *)
Definition pad3 (digits : string) : string :=
  zeros (3 - String.length digits) ++ digits.

(** [f"page_{page_index:03d}.txt"] *)
Definition page_filename (page_index : nat) : string :=
  "page_" ++ pad3 (nat_to_string page_index) ++ ".txt".

Section Write.
Variable Path : Type.
Variable Path_eq_dec : forall p q : Path, {p = q} + {p <> q}.
Variable join : Path -> string -> Path.
Variable lineage : Path -> list Path.
Variable resolve_p : Path -> Path.
Variable utf8_encode : string -> list Byte.byte.

Definition FS : Type := Path -> option Entry.

Definition upd (fs : FS) (p : Path) (e : Entry) : FS :=
  fun q => if Path_eq_dec q p then Some e else fs q.

(** [mkdir] over the lineage: an existing directory is kept
    ([exist_ok=True]), a missing one is created, a regular file in the way
    raises [FileExistsError] ([None]). *)
Fixpoint mkdirs (ps : list Path) (fs : FS) : option FS :=
  match ps with
  | [] => Some fs
  | p :: ps =>
      match fs p with
      | Some (FileE _) => None
      | Some DirE => mkdirs ps fs
      | None => mkdirs ps (upd fs p DirE)
      end
  end.

Definition mkdir_p (d : Path) (fs : FS) : option FS := mkdirs (lineage d) fs.

(** [open(file_path, "w", encoding="utf-8")] then [f.write(content)]: a
    directory at the path raises [IsADirectoryError]; otherwise the file is
    truncated and holds exactly the encoded content. *)
Definition open_write (fp : Path) (content : string) (fs : FS) : option FS :=
  match fs fp with
  | Some DirE => None
  | _ => Some (upd fs fp (FileE (utf8_encode content)))
  end.

Definition save_text_to_file (directory : Path) (filename : string) (content : string)
    (fs : FS) : option FS :=
  match mkdir_p directory fs with
  | None => None
  | Some fs1 => open_write (join directory filename) content fs1
  end.

(** Returns the [raw_extract_by_page] and [chunks] directories. *)
Definition create_subdirectories (base_dir : Path) (fs : FS) : option (Path * Path * FS) :=
  let base_dir := resolve_p base_dir in
  match mkdir_p base_dir fs with
  | None => None
  | Some fs1 =>
      let raw_extract_dir := join base_dir "raw_extract_by_page" in
      let chunks_dir := join base_dir "chunks" in
      match mkdir_p raw_extract_dir fs1 with
      | None => None
      | Some fs2 =>
          match mkdir_p chunks_dir fs2 with
          | None => None
          | Some fs3 => Some (raw_extract_dir, chunks_dir, fs3)
          end
      end
  end.

(** The loop [for page_index, text in enumerate(page_texts, start=1)]. *)
Fixpoint save_pages (raw_extract_dir : Path) (page_index : nat) (page_texts : list string)
    (fs : FS) : option FS :=
  match page_texts with
  | [] => Some fs
  | text :: rest =>
      match save_text_to_file raw_extract_dir (page_filename page_index)
              (format_page_text page_index text) fs with
      | None => None
      | Some fs1 => save_pages raw_extract_dir (S page_index) rest fs1
      end
  end.

(** Steps 4 and 5 of [process_pdf_extraction]. *)
Definition write_pages (base_path : Path) (page_texts : list string) (fs : FS)
    : option (Path * FS) :=
  match create_subdirectories base_path fs with
  | None => None
  | Some (raw_extract_dir, _, fs1) =>
      match save_pages raw_extract_dir 1 page_texts fs1 with
      | None => None
      | Some fs2 => Some (raw_extract_dir, fs2)
      end
  end.

End Write.
End Writer.

(* ================================================================= *)
(** ** Further repository queries ([utils/tasks_repository.py]) *)

Module RepoMore.
Import Db.

(** [check_all_tasks_completed] (the aggregate query always yields one
    row, so the [if not result] branch is not taken). *)
Definition check_all_tasks_completed (s : DB) (jid : string) : bool :=
  let rows := filter (fun t => String.eqb (t_jobId t) jid) (tasks s) in
  let total := length rows in
  let completed := length (filter (fun t => String.eqb (t_status t) "completed") rows) in
  let failed := length (filter (fun t => String.eqb (t_status t) "failed") rows) in
  if Nat.eqb total 0 then false else Nat.eqb (completed + failed) total.

(** [get_job_id_from_task]: [SELECT "jobId" FROM "Task" WHERE "id" = tid]
    with [fetchone]. *)
Definition get_job_id_from_task (s : DB) (tid : string) : option string :=
  option_map t_jobId (find (fun t => String.eqb (t_id t) tid) (tasks s)).

End RepoMore.

(* ================================================================= *)
(** ** The job output directory ([get_job_output_directory]) *)

Module JobDir.
Import OutputPath Writer.

Section JobDirectory.
Variable Path : Type.
Variable Path_eq_dec : forall p q : Path, {p = q} + {p <> q}.
Variable Path_of : string -> Path.
Variable join : Path -> string -> Path.
Variable lineage : Path -> list Path.
Variable resolve_p : Path -> Path.
Variable cwd : Path.
Variable getenv : string -> option string.

(** [(base / "outputs" / job_id).resolve()], then
    [mkdir(parents=True, exist_ok=True)]. *)
Definition get_job_output_directory (job_id : string) (fs : FS Path)
    : option (Path * FS Path) :=
  let job_dir :=
    match outputs_base getenv with
    | Some base => resolve_p (join (join (Path_of base) "outputs") job_id)
    | None => resolve_p (join (join cwd "outputs") job_id)
    end in
  match mkdir_p Path Path_eq_dec lineage job_dir fs with
  | None => None
  | Some fs1 => Some (job_dir, fs1)
  end.

End JobDirectory.
End JobDir.

(* ================================================================= *)
(** * Properties of the job/task ledger *)

Module LedgerFacts.
Import Db Orchestrator.

(** Sample rows used by the concrete checks below. *)
Definition job_j1 (st : string) : Job := mkJob "j1" st "n1" 0.
Definition file_f1 (st : string) : DemandFile :=
  mkDemandFile "f1" "n1" "a.pdf" (Some "/uploads/a.pdf") st 0.
Definition task_t1 (st : string) : Task :=
  mkTask "t1" "j1" "f1" "a.pdf" (Some "/uploads/a.pdf") DUMMY_TASK_SUMMARY st
         None None None None None 0 0.
Definition store (js : list Job) (ds : list DemandFile) (ts : list Task) : DB :=
  mkDB js ds ts 1 0 [].

Definition count_tasks_for (s : DB) (dfid : string) : nat :=
  length (filter (fun x => String.eqb x dfid) (map t_demandFileId (tasks s))).

(** Status of the first job row with the given id. *)
Definition job_status_by_id (s : DB) (jid : string) : option string :=
  option_map job_status (get_job_by_id s jid).

Lemma set_job_status_id jid st now j :
  job_id (set_job_status jid st now j) = job_id j.
Proof. unfold set_job_status; destruct (String.eqb (job_id j) jid); reflexivity. Qed.

Lemma set_job_status_note jid st now j :
  job_demandNoteId (set_job_status jid st now j) = job_demandNoteId j.
Proof. unfold set_job_status; destruct (String.eqb (job_id j) jid); reflexivity. Qed.

Lemma job_demand_files_update s jid' st jid :
  job_demand_files (update_job_status s jid' st) jid = job_demand_files s jid.
Proof.
  unfold job_demand_files, update_job_status, with_jobs; simpl.
  induction (jobs s) as [|j js IH]; simpl; [reflexivity|].
  rewrite set_job_status_id, set_job_status_note, IH; reflexivity.
Qed.

Lemma check_all_update s jid' st jid :
  check_all_demand_files_summarized (update_job_status s jid' st) jid =
  check_all_demand_files_summarized s jid.
Proof. unfold check_all_demand_files_summarized; now rewrite job_demand_files_update. Qed.

(** The effective aggregation either marks the job completed or leaves the
    store as it is. *)
Lemma check_and_update_job_status_eq s jid :
  check_and_update_job_status s jid =
  if check_all_demand_files_summarized s jid
  then update_job_status (log_call s (CallJobCompleted jid)) jid "completed"
  else s.
Proof.
  unfold check_and_update_job_status, mark_job_completed,
         check_all_demand_files_summarized.
  destruct (Nat.eqb (length (job_demand_files s jid)) 0); [reflexivity|].
  destruct (Nat.eqb (length (filter is_summarized (job_demand_files s jid)))
                    (length (job_demand_files s jid))); reflexivity.
Qed.

Lemma set_job_status_twice jid st n1 n2 j :
  job_status (set_job_status jid st n2 (set_job_status jid st n1 j)) =
  job_status (set_job_status jid st n1 j).
Proof.
  unfold set_job_status at 2 3.
  destruct (String.eqb (job_id j) jid) eqn:E; simpl.
  - unfold set_job_status; simpl; rewrite E; reflexivity.
  - unfold set_job_status; rewrite E; reflexivity.
Qed.

Lemma in_map_set_job_status jid st now js j :
  In j (map (set_job_status jid st now) js) -> job_id j = jid -> job_status j = st.
Proof.
  intros Hin Hid. apply in_map_iff in Hin as [j0 [<- _]].
  unfold set_job_status in *. destruct (String.eqb (job_id j0) jid) eqn:E.
  - reflexivity.
  - apply String.eqb_neq in E. contradiction.
Qed.

Lemma find_map_set_job_status jid st now js :
  find (fun j => String.eqb (job_id j) jid) (map (set_job_status jid st now) js) =
  option_map (set_job_status jid st now) (find (fun j => String.eqb (job_id j) jid) js).
Proof.
  induction js as [|j js IH]; simpl; [reflexivity|].
  rewrite set_job_status_id. destruct (String.eqb (job_id j) jid); [reflexivity|exact IH].
Qed.

(** C1 counterexample: a pending job with one failed task whose source file
    is still [not_summarized].  Aggregation leaves the job [pending], while
    the stated function gives [failed] (from the tasks) or [in_progress]
    (from the files). *)
Definition c1_store : DB :=
  store [job_j1 "pending"] [file_f1 "not_summarized"] [task_t1 "failed"].

Lemma job_status_aggregation_counterexample :
  job_status_by_id (check_and_update_job_status c1_store "j1") "j1" = Some "pending" /\
  Some (SpecStatus.job_status_of_tasks (map t_status (tasks c1_store))) = Some "failed" /\
  Some (SpecStatus.job_status_of_files
          (map df_summaryStatus (job_demand_files c1_store "j1"))) = Some "in_progress".
Proof. vm_compute. repeat split. Qed.

(** C1 (amended).  The aggregation in effect is the file-summarization one:
    when the job has at least one source file and all of them are
    [summarized], every job row with that id becomes [completed]; otherwise
    the store is left unchanged (no [failed], no [in_progress] is written).
    Files and tasks are never touched, and aggregating again does not change
    any job status. *)
Theorem job_status_aggregation s jid :
  let s' := check_and_update_job_status s jid in
  (check_all_demand_files_summarized s jid = true ->
     (forall j, In j (jobs s') -> job_id j = jid -> job_status j = "completed")) /\
  (check_all_demand_files_summarized s jid = false -> s' = s) /\
  demand_files s' = demand_files s /\ tasks s' = tasks s /\
  map job_status (jobs (check_and_update_job_status s' jid)) = map job_status (jobs s').
Proof.
  cbv zeta. rewrite !check_and_update_job_status_eq.
  destruct (check_all_demand_files_summarized s jid) eqn:E.
  - rewrite check_all_update. change (check_all_demand_files_summarized
      (log_call s (CallJobCompleted jid)) jid) with
      (check_all_demand_files_summarized s jid). rewrite E.
    split; [|split; [discriminate|split; [reflexivity|split; [reflexivity|]]]].
    + intros _ j Hin Hid. exact (in_map_set_job_status _ _ _ _ _ Hin Hid).
    + simpl. rewrite !map_map. apply map_ext. intro j. apply set_job_status_twice.
  - rewrite E. split; [discriminate|]. split; [reflexivity|]. repeat split.
Qed.

Lemma fold_insert_tasks jid rows s :
  let s' := fold_left (fun acc df => insert_task acc (new_task acc jid df)) rows s in
  jobs s' = jobs s /\ demand_files s' = demand_files s /\ trace s' = trace s /\
  map t_demandFileId (tasks s') = (map t_demandFileId (tasks s) ++ map df_id rows)%list /\
  length (tasks s') = length (tasks s) + length rows.
Proof.
  revert s; induction rows as [|df rows IH]; intros s; simpl.
  - rewrite app_nil_r, Nat.add_0_r. repeat split.
  - destruct (IH (insert_task s (new_task s jid df))) as (H1 & H2 & H3 & H4 & H5).
    rewrite H1, H2, H3, H4, H5. simpl. rewrite map_app, <- app_assoc, length_app.
    simpl. repeat split. lia.
Qed.

Lemma create_tasks_for_job_props s jid :
  let s' := create_tasks_for_job s jid in
  let rows := filter is_not_summarized (job_demand_files s jid) in
  jobs s' = jobs s /\ demand_files s' = demand_files s /\ trace s' = trace s /\
  map t_demandFileId (tasks s') = (map t_demandFileId (tasks s) ++ map df_id rows)%list /\
  length (tasks s') = length (tasks s) + length rows.
Proof.
  unfold create_tasks_for_job; simpl. apply fold_insert_tasks.
Qed.

Lemma job_demand_files_ext s1 s2 jid :
  jobs s1 = jobs s2 -> demand_files s1 = demand_files s2 ->
  job_demand_files s1 jid = job_demand_files s2 jid.
Proof. intros H1 H2; unfold job_demand_files; now rewrite H1, H2. Qed.

Lemma count_tasks_after_create s jid d :
  count_tasks_for (create_tasks_for_job s jid) d =
  count_tasks_for s d +
  length (filter (fun df => String.eqb (df_id df) d)
                 (filter is_not_summarized (job_demand_files s jid))).
Proof.
  unfold count_tasks_for. destruct (create_tasks_for_job_props s jid) as (_ & _ & _ & H & _).
  rewrite H, filter_app, length_app. f_equal. clear H.
  induction (filter is_not_summarized (job_demand_files s jid)) as [|x l IH]; simpl;
    [reflexivity|].
  destruct (String.eqb (df_id x) d); simpl; rewrite IH; reflexivity.
Qed.

Lemma filter_id_nodup (ds : list DemandFile) df :
  NoDup (map df_id ds) -> In df ds ->
  filter (fun x => String.eqb (df_id x) (df_id df)) ds = [df].
Proof.
  induction ds as [|x ds IH]; simpl; intros Hnd Hin; [contradiction|].
  inversion Hnd as [|? ? Hnotin Hnd']; subst.
  destruct Hin as [<-|Hin].
  - rewrite String.eqb_refl. f_equal.
    clear IH Hnd Hnd'. induction ds as [|y ds IH]; simpl; [reflexivity|].
    destruct (String.eqb (df_id y) (df_id x)) eqn:E.
    + apply String.eqb_eq in E. exfalso; apply Hnotin. simpl. left; exact E.
    + apply IH. intro H'. apply Hnotin. simpl. right; exact H'.
  - destruct (String.eqb (df_id x) (df_id df)) eqn:E.
    + apply String.eqb_eq in E. exfalso; apply Hnotin. rewrite E. now apply in_map.
    + now apply IH.
Qed.

Lemma filter_comm {A} (f g : A -> bool) l :
  filter f (filter g l) = filter g (filter f l).
Proof.
  induction l as [|x l IH]; simpl; [reflexivity|].
  destruct (g x) eqn:Eg, (f x) eqn:Ef; simpl; rewrite ?Eg, ?Ef, IH; reflexivity.
Qed.

Lemma job_demand_files_single s jid j0 :
  filter (fun j => String.eqb (job_id j) jid) (jobs s) = [j0] ->
  job_demand_files s jid =
  filter (fun df => String.eqb (df_demandNoteId df) (job_demandNoteId j0)) (demand_files s).
Proof.
  unfold job_demand_files. generalize (jobs s) as js. intros js.
  induction js as [|j js IH]; simpl; [discriminate|].
  destruct (String.eqb (job_id j) jid) eqn:E.
  - intros H. injection H as -> Hrest.
    replace (flat_map _ js) with (@nil DemandFile); [now rewrite app_nil_r|].
    clear IH. induction js as [|j' js IH']; simpl in *; [reflexivity|].
    destruct (String.eqb (job_id j') jid); [discriminate|]. now apply IH'.
  - exact IH.
Qed.

Lemma fold_insert_tasks_pending jid rows s :
  let s' := fold_left (fun acc df => insert_task acc (new_task acc jid df)) rows s in
  exists new, tasks s' = (tasks s ++ new)%list /\
    Forall (fun t => t_status t = "pending" /\ t_jobId t = jid) new /\
    map t_demandFileId new = map df_id rows.
Proof.
  revert s; induction rows as [|df rows IH]; intros s; simpl.
  - exists []. split; [now rewrite app_nil_r|split; [constructor|reflexivity]].
  - destruct (IH (insert_task s (new_task s jid df))) as (new & Ht & Hp & Hm).
    exists (new_task s jid df :: new). simpl in Ht. split; [|split].
    + rewrite Ht, <- app_assoc. reflexivity.
    + constructor; [split; reflexivity|exact Hp].
    + simpl. rewrite Hm. reflexivity.
Qed.

Lemma create_tasks_pending s jid :
  exists new, tasks (create_tasks_for_job s jid) = (tasks s ++ new)%list /\
    Forall (fun t => t_status t = "pending" /\ t_jobId t = jid) new /\
    map t_demandFileId new = map df_id (filter is_not_summarized (job_demand_files s jid)).
Proof. unfold create_tasks_for_job. simpl. apply fold_insert_tasks_pending. Qed.

Lemma filter_eqb_map_df_id (l : list DemandFile) d :
  length (filter (fun x => String.eqb x d) (map df_id l)) =
  length (filter (fun df => String.eqb (df_id df) d) l).
Proof.
  induction l as [|x l IH]; simpl; [reflexivity|].
  destruct (String.eqb (df_id x) d); simpl; rewrite IH; reflexivity.
Qed.

Lemma run_rows_for_file s jid j0 df :
  filter (fun j => String.eqb (job_id j) jid) (jobs s) = [j0] ->
  NoDup (map df_id (demand_files s)) ->
  In df (demand_files s) ->
  length (filter (fun df0 => String.eqb (df_id df0) (df_id df))
            (filter is_not_summarized (job_demand_files s jid))) =
  (if String.eqb (df_demandNoteId df) (job_demandNoteId j0) && is_not_summarized df
   then 1 else 0).
Proof.
  intros Hj Hnd Hin.
  rewrite (job_demand_files_single s jid j0 Hj).
  rewrite (filter_comm (fun df0 => String.eqb (df_id df0) (df_id df)) is_not_summarized).
  rewrite (filter_comm (fun df0 => String.eqb (df_id df0) (df_id df))
             (fun df0 => String.eqb (df_demandNoteId df0) (job_demandNoteId j0))).
  rewrite (filter_id_nodup _ df Hnd Hin). cbn [filter].
  destruct (String.eqb (df_demandNoteId df) (job_demandNoteId j0)); cbn [filter];
    destruct (is_not_summarized df); reflexivity.
Qed.

(** C3 counterexample: two runs on a job with one [not_summarized] file and
    no tasks leave two tasks for that file. *)
Definition c3_store : DB := store [job_j1 "pending"] [file_f1 "not_summarized"] [].

Lemma create_tasks_twice_counterexample :
  count_tasks_for (create_tasks_for_job (create_tasks_for_job c3_store "j1") "j1") "f1" = 2.
Proof. vm_compute. reflexivity. Qed.

(** C3 (amended).  Each run of [create_tasks_for_job] appends new tasks,
    all [pending] and belonging to the job, one for every source file of the
    job currently [not_summarized], without looking for an existing task.
    With a unique job row and unique file ids, each of two runs in
    succession adds one pending task for such a file, so the two runs add
    two, and they add none for a file of the job that is already summarized
    or that belongs to another demand note. *)
Theorem create_tasks_twice s jid j0 df :
  filter (fun j => String.eqb (job_id j) jid) (jobs s) = [j0] ->
  NoDup (map df_id (demand_files s)) ->
  In df (demand_files s) ->
  let k := if String.eqb (df_demandNoteId df) (job_demandNoteId j0) && is_not_summarized df
           then 1 else 0 in
  let s1 := create_tasks_for_job s jid in
  let s2 := create_tasks_for_job s1 jid in
  (exists new1, tasks s1 = (tasks s ++ new1)%list /\
     Forall (fun t => t_status t = "pending" /\ t_jobId t = jid) new1 /\
     length (filter (fun t => String.eqb (t_demandFileId t) (df_id df)) new1) = k) /\
  (exists new2, tasks s2 = (tasks s1 ++ new2)%list /\
     Forall (fun t => t_status t = "pending" /\ t_jobId t = jid) new2 /\
     length (filter (fun t => String.eqb (t_demandFileId t) (df_id df)) new2) = k) /\
  count_tasks_for s2 (df_id df) = count_tasks_for s (df_id df) + 2 * k.
Proof.
  intros Hj Hnd Hin k s1 s2.
  destruct (create_tasks_for_job_props s jid) as (Hjobs & Hdfs & _).
  assert (Hrows : job_demand_files s1 jid = job_demand_files s jid)
    by exact (job_demand_files_ext _ s jid Hjobs Hdfs).
  assert (Hcount : forall (new : list Task) (rows : list DemandFile),
            map t_demandFileId new = map df_id rows ->
            length (filter (fun t => String.eqb (t_demandFileId t) (df_id df)) new) =
            length (filter (fun df0 => String.eqb (df_id df0) (df_id df)) rows)).
  { intros new rows Hm. rewrite <- filter_eqb_map_df_id, <- Hm.
    clear. induction new as [|t new IH]; simpl; [reflexivity|].
    destruct (String.eqb (t_demandFileId t) (df_id df)); simpl; rewrite IH; reflexivity. }
  split; [|split].
  - destruct (create_tasks_pending s jid) as (new & Ht & Hp & Hm).
    exists new. split; [exact Ht|split; [exact Hp|]].
    rewrite (Hcount new _ Hm). exact (run_rows_for_file s jid j0 df Hj Hnd Hin).
  - destruct (create_tasks_pending s1 jid) as (new & Ht & Hp & Hm).
    exists new. split; [exact Ht|split; [exact Hp|]].
    rewrite (Hcount new _ Hm), Hrows. exact (run_rows_for_file s jid j0 df Hj Hnd Hin).
  - unfold s2, s1. rewrite count_tasks_after_create, count_tasks_after_create.
    fold s1. rewrite Hrows, (run_rows_for_file s jid j0 df Hj Hnd Hin). unfold k. lia.
Qed.

Lemma create_tasks_twice_witness :
  filter (fun j => String.eqb (job_id j) "j1") (jobs c3_store) = [job_j1 "pending"] /\
  NoDup (map df_id (demand_files c3_store)) /\
  In (file_f1 "not_summarized") (demand_files c3_store) /\
  count_tasks_for (create_tasks_for_job (create_tasks_for_job c3_store "j1") "j1") "f1" =
  count_tasks_for c3_store "f1" + 2 * 1.
Proof.
  assert (Hj : filter (fun j => String.eqb (job_id j) "j1") (jobs c3_store) =
               [job_j1 "pending"]) by reflexivity.
  assert (Hnd : NoDup (map df_id (demand_files c3_store))) by (simpl; repeat constructor; auto).
  assert (Hin : In (file_f1 "not_summarized") (demand_files c3_store)) by (simpl; auto).
  split; [exact Hj|]. split; [exact Hnd|]. split; [exact Hin|].
  exact (proj2 (proj2 (create_tasks_twice c3_store "j1" (job_j1 "pending")
           (file_f1 "not_summarized") Hj Hnd Hin))).
Defined.

Lemma set_df_summarized_id dfid out df :
  df_id (set_df_summarized dfid out df) = df_id df.
Proof. unfold set_df_summarized; destruct (String.eqb (df_id df) dfid); reflexivity. Qed.

Lemma left_join_rows_head s df out :
  df_filePath df = Some out ->
  exists rest, left_join_rows s df = Some out :: rest.
Proof.
  intros Hp. unfold left_join_rows. rewrite Hp.
  destruct (filter _ (tasks s)) as [|t ts]; simpl; eexists; reflexivity.
Qed.

(** C10.  [mark_demand_file_summarized] writes only the [summaryStatus] and
    [filePath] columns of the rows with the given id; jobs, tasks and every
    other column and row are left as they were.  The path query of
    [fetch_pdf_from_database] prefers [DemandFile.filePath], so afterwards it
    yields the output directory instead of the original input path. *)
Theorem mark_demand_file_summarized_frame s dfid out :
  existsb (fun df => String.eqb (df_id df) dfid) (demand_files s) = true ->
  let s' := mark_demand_file_summarized s dfid out in
  jobs s' = jobs s /\ tasks s' = tasks s /\
  map df_id (demand_files s') = map df_id (demand_files s) /\
  map df_demandNoteId (demand_files s') = map df_demandNoteId (demand_files s) /\
  map df_fileName (demand_files s') = map df_fileName (demand_files s) /\
  map df_createdAt (demand_files s') = map df_createdAt (demand_files s) /\
  map (fun df => if String.eqb (df_id df) dfid then None else Some df) (demand_files s') =
  map (fun df => if String.eqb (df_id df) dfid then None else Some df) (demand_files s) /\
  (forall df, In df (demand_files s') -> df_id df = dfid ->
     df_filePath df = Some out /\ df_summaryStatus df = "summarized") /\
  fetch_file_path_query s' dfid = Some (Some out).
Proof.
  intros Hex s'. unfold s', mark_demand_file_summarized, with_demand_files; simpl.
  rewrite !map_map.
  split; [reflexivity|]. split; [reflexivity|].
  repeat split; try (apply map_ext; intro df; unfold set_df_summarized;
                     destruct (String.eqb (df_id df) dfid) eqn:E; simpl; rewrite ?E;
                     reflexivity).
  - apply in_map_iff in H as [d0 [<- _]].
    unfold set_df_summarized in *. destruct (String.eqb (df_id d0) dfid) eqn:E.
    + reflexivity.
    + apply String.eqb_neq in E. contradiction.
  - rename H into Hin, H0 into Hid. apply in_map_iff in Hin as [d0 [<- _]].
    unfold set_df_summarized in *. destruct (String.eqb (df_id d0) dfid) eqn:E.
    + reflexivity.
    + apply String.eqb_neq in E. contradiction.
  - unfold fetch_file_path_query; simpl.
    induction (demand_files s) as [|d ds IH]; simpl in *; [discriminate|].
    rewrite set_df_summarized_id.
    destruct (String.eqb (df_id d) dfid) eqn:E.
    + simpl. destruct (left_join_rows_head
                         (mkDB (jobs s) (map (set_df_summarized dfid out) (d :: ds))
                               (tasks s) (S (clock s)) (uuid_seed s) (trace s))
                         (set_df_summarized dfid out d) out) as [rest Hr].
      * unfold set_df_summarized; rewrite E; reflexivity.
      * simpl in Hr. rewrite Hr. reflexivity.
    + apply IH. exact Hex.
Qed.

Lemma mark_demand_file_summarized_frame_witness :
  existsb (fun df => String.eqb (df_id df) "f1") (demand_files c3_store) = true /\
  fetch_file_path_query (mark_demand_file_summarized c3_store "f1" "/out/j1/a") "f1" =
  Some (Some "/out/j1/a").
Proof.
  assert (H : existsb (fun df => String.eqb (df_id df) "f1") (demand_files c3_store) = true)
    by reflexivity.
  split; [exact H|].
  destruct (mark_demand_file_summarized_frame c3_store "f1" "/out/j1/a" H)
    as (_ & _ & _ & _ & _ & _ & _ & _ & Hq).
  exact Hq.
Defined.

Lemma get_job_by_id_update s jid st j :
  get_job_by_id s jid = Some j ->
  get_job_by_id (update_job_status s jid st) jid = Some (set_job_status jid st (clock s) j) /\
  job_status (set_job_status jid st (clock s) j) = st.
Proof.
  unfold get_job_by_id, update_job_status, with_jobs; simpl. intros Hf.
  rewrite find_map_set_job_status, Hf. split; [reflexivity|].
  apply find_some in Hf as [_ Hid]. apply String.eqb_eq in Hid.
  unfold set_job_status. rewrite Hid, String.eqb_refl. reflexivity.
Qed.

Lemma mark_job_in_progress_props s jid :
  jobs (mark_job_in_progress s jid) = map (set_job_status jid "in_progress" (clock s)) (jobs s) /\
  demand_files (mark_job_in_progress s jid) = demand_files s /\
  tasks (mark_job_in_progress s jid) = tasks s /\
  trace (mark_job_in_progress s jid) = (trace s ++ [CallJobInProgress jid])%list /\
  job_demand_files (mark_job_in_progress s jid) jid = job_demand_files s jid.
Proof.
  repeat split. unfold mark_job_in_progress.
  rewrite job_demand_files_update. reflexivity.
Qed.

Lemma sort_by_created_nil : sort_by_created [] = [].
Proof. reflexivity. Qed.

(** The part of [main] up to the "no demand files" branch. *)
Lemma main_no_files proc pid s jid j prog rest :
  get_job_by_id s jid = Some j ->
  filter is_not_summarized (job_demand_files s jid) = [] ->
  let s2 := create_tasks_for_job (mark_job_in_progress s jid) jid in
  main proc pid (prog :: jid :: rest) s =
  (Returned, mark_job_failed s2 jid (Some "No demand files found for this job")).
Proof.
  intros Hj Hrows s2. unfold main, main_job. rewrite Hj. cbv zeta.
  destruct (create_tasks_for_job_props (mark_job_in_progress s jid) jid)
    as (Hjobs & Hdfs & _).
  unfold get_demand_files_for_job.
  rewrite (job_demand_files_ext _ _ jid Hjobs Hdfs).
  rewrite (proj2 (proj2 (proj2 (proj2 (mark_job_in_progress_props s jid))))).
  rewrite Hrows. reflexivity.
Qed.

Lemma main_no_files_status s jid j :
  get_job_by_id s jid = Some j ->
  let s2 := create_tasks_for_job (mark_job_in_progress s jid) jid in
  job_status_by_id (mark_job_failed s2 jid (Some "No demand files found for this job")) jid =
  Some "failed" /\
  trace (mark_job_failed s2 jid (Some "No demand files found for this job")) =
  (trace s ++ [CallJobInProgress jid;
               CallJobFailed jid (Some "No demand files found for this job")])%list.
Proof.
  intros Hj s2.
  destruct (create_tasks_for_job_props (mark_job_in_progress s jid) jid)
    as (Hjobs & _ & Htr & _).
  destruct (get_job_by_id_update s jid "in_progress" j Hj) as [Hj1 _].
  assert (Hj2 : get_job_by_id s2 jid =
                Some (set_job_status jid "in_progress" (clock s) j)).
  { unfold get_job_by_id. fold s2 in Hjobs. rewrite Hjobs. exact Hj1. }
  split.
  - unfold job_status_by_id, mark_job_failed.
    destruct (get_job_by_id_update
                (log_call s2 (CallJobFailed jid (Some "No demand files found for this job")))
                jid "failed" _ Hj2) as [H1 H2].
    rewrite H1. exact (f_equal Some H2).
  - transitivity ((trace s2 ++
                    [CallJobFailed jid (Some "No demand files found for this job")])%list);
      [reflexivity|].
    unfold s2. rewrite Htr.
    rewrite (proj1 (proj2 (proj2 (proj2 (mark_job_in_progress_props s jid))))).
    rewrite <- app_assoc. reflexivity.
Qed.

Lemma summarized_not_not_summarized df :
  is_summarized df = true -> is_not_summarized df = false.
Proof.
  unfold is_summarized, is_not_summarized. intros H.
  apply String.eqb_eq in H. rewrite H. reflexivity.
Qed.

(** C4 (amended).  When the run materializes no task (the task table is the
    same before and after [create_tasks_for_job]), [main] ends the job in
    [failed]; it is never left [completed]. *)
Theorem no_tasks_job_fails proc pid s jid j prog rest :
  get_job_by_id s jid = Some j ->
  tasks (create_tasks_for_job (mark_job_in_progress s jid) jid) =
  tasks (mark_job_in_progress s jid) ->
  job_status_by_id (snd (main proc pid (prog :: jid :: rest) s)) jid = Some "failed".
Proof.
  intros Hj Hnone.
  destruct (create_tasks_for_job_props (mark_job_in_progress s jid) jid)
    as (_ & _ & _ & _ & Hlen).
  rewrite Hnone in Hlen.
  rewrite (proj2 (proj2 (proj2 (proj2 (mark_job_in_progress_props s jid))))) in Hlen.
  assert (Hrows : filter is_not_summarized (job_demand_files s jid) = []).
  { destruct (filter is_not_summarized (job_demand_files s jid)); [reflexivity|].
    simpl in Hlen. lia. }
  rewrite (main_no_files proc pid s jid j prog rest Hj Hrows). simpl.
  exact (proj1 (main_no_files_status s jid j Hj)).
Qed.

(** C9.  When every source file of an existing job is already [summarized],
    [main] marks the job [in_progress] and then [failed] with the reason
    "No demand files found for this job", and returns: re-running a finished
    job leaves it [failed]. *)
Theorem rerun_summarized_job_fails proc pid s jid j prog rest :
  get_job_by_id s jid = Some j ->
  forallb is_summarized (job_demand_files s jid) = true ->
  let r := main proc pid (prog :: jid :: rest) s in
  fst r = Returned /\
  trace (snd r) =
  (trace s ++ [CallJobInProgress jid;
               CallJobFailed jid (Some "No demand files found for this job")])%list /\
  job_status_by_id (snd r) jid = Some "failed".
Proof.
  intros Hj Hall r.
  assert (Hrows : filter is_not_summarized (job_demand_files s jid) = []).
  { induction (job_demand_files s jid) as [|df l IH]; simpl in *; [reflexivity|].
    apply andb_prop in Hall as [H1 H2].
    rewrite (summarized_not_not_summarized df H1). exact (IH H2). }
  unfold r. rewrite (main_no_files proc pid s jid j prog rest Hj Hrows). simpl.
  destruct (main_no_files_status s jid j Hj) as [H1 H2].
  split; [reflexivity|]. split; assumption.
Qed.

(** A store for the witnesses: job [j1] whose only file is already summarized. *)
Definition c9_store : DB :=
  store [job_j1 "completed"] [file_f1 "summarized"] [task_t1 "completed"].

Definition failing_extraction (s : DB) (dfid : string) : (string * nat) + string :=
  inr "PDF file not found".

Lemma no_tasks_job_fails_witness :
  get_job_by_id c9_store "j1" = Some (job_j1 "completed") /\
  tasks (create_tasks_for_job (mark_job_in_progress c9_store "j1") "j1") =
  tasks (mark_job_in_progress c9_store "j1") /\
  job_status_by_id (snd (main failing_extraction 42 ["main.py"; "j1"] c9_store)) "j1" =
  Some "failed".
Proof.
  assert (H1 : get_job_by_id c9_store "j1" = Some (job_j1 "completed")) by reflexivity.
  assert (H2 : tasks (create_tasks_for_job (mark_job_in_progress c9_store "j1") "j1") =
               tasks (mark_job_in_progress c9_store "j1")) by reflexivity.
  split; [exact H1|]. split; [exact H2|].
  exact (no_tasks_job_fails failing_extraction 42 c9_store "j1" _ "main.py" [] H1 H2).
Defined.

(** C4 counterexample: the reason is not recorded.  On [c9_store] the run
    ends with the job row [("j1", "failed", "n1", 3)], which has no field
    for a reason, and the stored tables after [mark_job_failed] are the same
    whichever reason is passed. *)
Lemma no_tasks_reason_counterexample :
  jobs (snd (main failing_extraction 42 ["main.py"; "j1"] c9_store)) =
    [mkJob "j1" "failed" "n1" 3] /\
  (forall s jid r,
     jobs (mark_job_failed s jid r) = jobs (mark_job_failed s jid None) /\
     demand_files (mark_job_failed s jid r) = demand_files (mark_job_failed s jid None) /\
     tasks (mark_job_failed s jid r) = tasks (mark_job_failed s jid None)).
Proof.
  split; [vm_compute; reflexivity|].
  intros s jid r. repeat split.
Qed.

Lemma rerun_summarized_job_fails_witness :
  get_job_by_id c9_store "j1" = Some (job_j1 "completed") /\
  forallb is_summarized (job_demand_files c9_store "j1") = true /\
  job_status_by_id (snd (main failing_extraction 42 ["main.py"; "j1"] c9_store)) "j1" =
  Some "failed".
Proof.
  assert (H1 : get_job_by_id c9_store "j1" = Some (job_j1 "completed")) by reflexivity.
  assert (H2 : forallb is_summarized (job_demand_files c9_store "j1") = true)
    by reflexivity.
  split; [exact H1|]. split; [exact H2|].
  exact (proj2 (proj2 (rerun_summarized_job_fails failing_extraction 42 c9_store "j1" _
                         "main.py" [] H1 H2))).
Defined.

End LedgerFacts.

(* ================================================================= *)
(** * Properties of page extraction *)

Module ExtractionFacts.
Import Extraction.

Section Facts.
Variables Doc Page : Type.
Variable fitz_open : list Byte.byte -> option Doc.
Variable doc_len : Doc -> nat.
Variable load_page : Doc -> nat -> option Page.
Variable get_text : Page -> option string.

Lemma extract_pages_some d idx acc res :
  extract_pages Doc Page load_page get_text d idx acc = Some res ->
  exists ts, res = (acc ++ ts)%list /\
             Forall2 (fun i t => page_text Doc Page load_page get_text d i = Some t) idx ts.
Proof.
  revert acc; induction idx as [|i idx IH]; intros acc; simpl.
  - intros [= <-]. exists []. rewrite app_nil_r. split; [reflexivity|constructor].
  - destruct (load_page d i) as [p|] eqn:El; [|discriminate].
    destruct (get_text p) as [t|] eqn:Et; [|discriminate].
    intros H. destruct (IH _ H) as [ts [-> Hall]].
    exists (t :: ts). rewrite <- app_assoc. split; [reflexivity|].
    constructor; [unfold page_text; rewrite El; exact Et|exact Hall].
Qed.

Lemma Forall2_seq_nth (P : nat -> string -> Prop) start ts n :
  Forall2 P (seq start n) ts ->
  length ts = n /\ forall i, i < n -> exists t, nth_error ts i = Some t /\ P (start + i) t.
Proof.
  revert start ts; induction n as [|n IH]; intros start ts H; simpl in H.
  - inversion H; subst. split; [reflexivity|]. intros i Hi; lia.
  - inversion H as [|a t l ts' Hp Hrest]; subst.
    destruct (IH _ _ Hrest) as [Hlen Hnth]. split; [simpl; lia|].
    intros [|i] Hi; simpl.
    + exists t. rewrite Nat.add_0_r. split; [reflexivity|exact Hp].
    + destruct (Hnth i ltac:(lia)) as [t' [Ht' Hp']]. exists t'.
      replace (start + S i) with (S start + i) by lia. split; assumption.
Qed.

(** Shared: a successful extraction returns exactly one entry per page, the
    [get_text] output of that page, in page order. *)
Lemma extract_text_by_page_ok pdf hs texts :
  fst (extract_text_by_page Doc Page fitz_open doc_len load_page get_text pdf hs) = Ok texts ->
  exists d, fitz_open pdf = Some d /\ length texts = doc_len d /\
    forall i, i < doc_len d -> page_text Doc Page load_page get_text d i = nth_error texts i.
Proof.
  unfold extract_text_by_page.
  destruct (fitz_open pdf) as [d|]; simpl; [|discriminate].
  destruct (extract_pages Doc Page load_page get_text d (seq 0 (doc_len d)) [])
    as [res|] eqn:E; simpl; [|discriminate].
  intros [= <-]. exists d. split; [reflexivity|].
  destruct (extract_pages_some _ _ _ _ E) as [ts [-> Hall]]. simpl.
  destruct (Forall2_seq_nth _ 0 ts _ Hall) as [Hlen Hnth].
  split; [exact Hlen|]. intros i Hi. destruct (Hnth i Hi) as [t [Ht Hp]].
  rewrite Ht. exact Hp.
Qed.

(** C8.  Whatever the input bytes and whatever the library does (the open,
    a page load or a [get_text] may raise), the set of open document handles
    after [extract_text_by_page] is the one before it: the handle opened by
    the call is closed on every path.  On success the result has one entry
    per page, the text of that page, in page order. *)
Theorem extract_text_by_page_releases pdf hs :
  open_handles (snd (extract_text_by_page Doc Page fitz_open doc_len load_page get_text pdf hs))
  = open_handles hs /\
  (forall texts,
     fst (extract_text_by_page Doc Page fitz_open doc_len load_page get_text pdf hs) = Ok texts ->
     exists d, fitz_open pdf = Some d /\ length texts = doc_len d /\
       forall i, i < doc_len d -> page_text Doc Page load_page get_text d i = nth_error texts i).
Proof.
  split; [|apply extract_text_by_page_ok].
  unfold extract_text_by_page.
  destruct (fitz_open pdf) as [d|]; [|reflexivity].
  destruct (extract_pages Doc Page load_page get_text d (seq 0 (doc_len d)) []);
    simpl; rewrite Nat.eqb_refl; reflexivity.
Qed.

(** C2 (amended).  The text of each page is exactly what [page.get_text()]
    returns for it: no block sorting, normalization or noise filtering is
    applied, and there is one entry per page in page order. *)
Theorem page_text_is_raw_get_text pdf hs texts d :
  fst (extract_text_by_page Doc Page fitz_open doc_len load_page get_text pdf hs) = Ok texts ->
  fitz_open pdf = Some d ->
  length texts = doc_len d /\
  forall i, i < doc_len d ->
    exists p t, load_page d i = Some p /\ get_text p = Some t /\ nth_error texts i = Some t.
Proof.
  intros Hok Hd.
  destruct (extract_text_by_page_ok _ _ _ Hok) as [d' [Hd' [Hlen Hnth]]].
  rewrite Hd in Hd'. injection Hd' as <-. split; [exact Hlen|].
  intros i Hi. specialize (Hnth i Hi). unfold page_text in Hnth.
  destruct (load_page d i) as [p|].
  - destruct (get_text p) as [t|] eqn:Et.
    + exists p, t. auto.
    + exfalso. symmetry in Hnth. apply nth_error_None in Hnth. lia.
  - exfalso. symmetry in Hnth. apply nth_error_None in Hnth. lia.
Qed.

End Facts.

(** A one-page document whose blocks are stored bottom block first.
    PyMuPDF's [get_text()] emits them in that stored order, each line ended
    by a newline. *)
Import SpecExtraction.

Definition c2_page : PdfPage :=
  mkPdfPage ("Second" ++ String nl ("First" ++ String nl ""))
            [mkBlock 0 50 "Second"; mkBlock 0 10 "First"].

Definition c2_open (_ : list Byte.byte) : option (list PdfPage) := Some [c2_page].
Definition c2_load (d : list PdfPage) (i : nat) : option PdfPage := nth_error d i.
Definition c2_get_text (p : PdfPage) : option string := Some (plain_text p).

Lemma page_text_reading_order_counterexample :
  fst (extract_text_by_page (list PdfPage) PdfPage c2_open (@length PdfPage) c2_load
         c2_get_text [] (mkHandles 0 [])) = Ok [plain_text c2_page] /\
  spec_page_text c2_page = "First" ++ String nl "Second" /\
  plain_text c2_page <> spec_page_text c2_page.
Proof.
  split; [reflexivity|]. split; [vm_compute; reflexivity|].
  vm_compute. discriminate.
Qed.

Lemma page_text_is_raw_get_text_witness :
  fst (extract_text_by_page (list PdfPage) PdfPage c2_open (@length PdfPage) c2_load
         c2_get_text [] (mkHandles 0 [])) = Ok [plain_text c2_page] /\
  c2_open [] = Some [c2_page] /\
  length [plain_text c2_page] = length [c2_page] /\
  exists p t, c2_load [c2_page] 0 = Some p /\ c2_get_text p = Some t /\
              nth_error [plain_text c2_page] 0 = Some t.
Proof.
  assert (H1 : fst (extract_text_by_page (list PdfPage) PdfPage c2_open (@length PdfPage)
                      c2_load c2_get_text [] (mkHandles 0 [])) = Ok [plain_text c2_page])
    by reflexivity.
  assert (H2 : c2_open [] = Some [c2_page]) by reflexivity.
  split; [exact H1|]. split; [exact H2|].
  destruct (page_text_is_raw_get_text (list PdfPage) PdfPage c2_open (@length PdfPage)
              c2_load c2_get_text [] (mkHandles 0 []) _ _ H1 H2) as [Hlen Hall].
  split; [exact Hlen|]. apply Hall. simpl. lia.
Defined.

End ExtractionFacts.

(* ================================================================= *)
(** * Properties of input path resolution *)

Module ResolverFacts.
Import PyStr Resolver.

Lemma str_app_assoc (a b c : string) : a ++ b ++ c = (a ++ b) ++ c.
Proof. induction a as [|x a IH]; simpl; [reflexivity|now rewrite IH]. Qed.

Section Facts.
Variable Path : Type.
Variable Path_of : string -> Path.
Variable path_str : Path -> string.
Variable join : Path -> string -> Path.
Variable parent : Path -> Path.
Variable cwd : Path.
Variable exists_p : Path -> bool.
Variable read_bytes : Path -> option (list Byte.byte).
Variable getenv : string -> option string.

Abbreviation attempt := (attempt Path path_str exists_p).
Abbreviation attempt_until := (attempt_until Path path_str exists_p).
Abbreviation upto_first := (upto_first Path exists_p).

(** The resolver state after trying the candidates of [l] in order. *)
Definition tried (l : list Path) (st : RState Path) : Prop :=
  st = (map path_str (upto_first l), find exists_p l).

Lemma upto_first_none l : find exists_p l = None -> upto_first l = l.
Proof.
  induction l as [|p l IH]; simpl; [reflexivity|].
  destruct (exists_p p); [discriminate|]. intros H; now rewrite IH.
Qed.

Lemma upto_first_app_none l1 l2 :
  find exists_p l1 = None -> upto_first (l1 ++ l2) = (l1 ++ upto_first l2)%list.
Proof.
  induction l1 as [|p l1 IH]; simpl; [reflexivity|].
  destruct (exists_p p); [discriminate|]. intros H; now rewrite IH.
Qed.

Lemma find_app_none l1 l2 :
  find exists_p l1 = None -> find exists_p (l1 ++ l2) = find exists_p l2.
Proof.
  induction l1 as [|p l1 IH]; simpl; [reflexivity|].
  destruct (exists_p p); [discriminate|]. exact IH.
Qed.

Lemma tried_found l r st :
  tried l st -> snd st <> None -> tried (l ++ r) st.
Proof.
  unfold tried. intros -> Hs. simpl in Hs.
  induction l as [|p l IH]; simpl in *; [contradiction|].
  destruct (exists_p p); [reflexivity|].
  specialize (IH Hs). injection IH as H1 H2. rewrite H1, H2. reflexivity.
Qed.

Lemma tried_attempt_until l ps st :
  tried l st -> snd st = None -> tried (l ++ ps) (attempt_until ps st).
Proof.
  revert l st; induction ps as [|p ps IH]; intros l st Ht Hs.
  - rewrite app_nil_r. exact Ht.
  - unfold tried in Ht. rewrite Ht in Hs. simpl in Hs.
    rewrite Ht. simpl. unfold Resolver.attempt. simpl.
    rewrite (upto_first_none _ Hs).
    destruct (exists_p p) eqn:Ep.
    + unfold tried. rewrite upto_first_app_none, find_app_none by exact Hs.
      simpl. rewrite Ep, map_app. reflexivity.
    + replace (l ++ p :: ps)%list with ((l ++ [p]) ++ ps)%list
        by (rewrite <- app_assoc; reflexivity).
      apply IH.
      * unfold tried. rewrite upto_first_app_none, find_app_none by exact Hs.
        simpl. rewrite Ep, Hs, map_app. reflexivity.
      * simpl. exact Hs.
Qed.

Lemma attempt_as_until st p : attempt st p = attempt_until [p] st.
Proof. simpl. destruct (exists_p p); reflexivity. Qed.

Lemma tried_guarded l ps st :
  tried l st ->
  tried (l ++ ps) (match snd st with Some _ => st | None => attempt_until ps st end).
Proof.
  intros Ht. destruct (snd st) eqn:Hs.
  - apply tried_found; [exact Ht|]. rewrite Hs; discriminate.
  - apply tried_attempt_until; assumption.
Qed.

Lemma tried_eq l1 l2 st : l1 = l2 -> tried l1 st -> tried l2 st.
Proof. now intros ->. Qed.

Lemma resolve_pdf_path_tried file_path :
  tried (candidate_chain Path Path_of path_str join parent cwd getenv file_path)
        (resolve_pdf_path Path Path_of path_str join parent cwd exists_p getenv file_path).
Proof.
  unfold resolve_pdf_path, candidate_chain.
  set (P := Path_of file_path).
  set (envL := match uploads_base getenv with
               | Some base => [join (Path_of base)
                                 (if startswith_slash file_path
                                  then lstrip_slash file_path else file_path)]
               | None => [] end).
  set (st1 := attempt ([], None) P).
  assert (H1 : tried [P] st1).
  { unfold st1. rewrite attempt_as_until.
    apply (tried_attempt_until [] [P] ([], None)); reflexivity. }
  set (st2 := match snd st1 with
              | Some _ => st1
              | None => match uploads_base getenv with
                        | Some base => attempt st1 (join (Path_of base)
                                         (if startswith_slash file_path
                                          then lstrip_slash file_path else file_path))
                        | None => st1 end end).
  assert (H2 : tried ([P] ++ envL) st2).
  { unfold st2, envL. destruct (uploads_base getenv) as [base|].
    - rewrite attempt_as_until. apply tried_guarded. exact H1.
    - destruct (snd st1); rewrite app_nil_r; exact H1. }
  fold st2.
  destruct (snd st2) eqn:E2.
  { rewrite app_assoc. apply tried_found; [exact H2|]. rewrite E2; discriminate. }
  destruct (startswith_slash file_path).
  2: { rewrite app_assoc, app_nil_r. exact H2. }
  set (rel := lstrip_slash file_path).
  set (st3 := attempt st2 (Path_of rel)).
  assert (H3 : tried (([P] ++ envL) ++ [Path_of rel]) st3).
  { unfold st3. rewrite attempt_as_until.
    pose proof (tried_guarded _ [Path_of rel] _ H2) as H. rewrite E2 in H. exact H. }
  fold st3.
  set (st4 := match snd st3 with
              | Some _ => st3 | None => attempt st3 (join cwd rel) end).
  assert (H4 : tried ((([P] ++ envL) ++ [Path_of rel]) ++ [join cwd rel]) st4).
  { unfold st4. rewrite attempt_as_until. apply tried_guarded. exact H3. }
  fold st4.
  set (anc := map (fun level => join (ancestor Path parent cwd level) rel) (seq 0 4)).
  set (st5 := match snd st4 with
              | Some _ => st4 | None => attempt_until anc st4 end).
  assert (H5 : tried (((([P] ++ envL) ++ [Path_of rel]) ++ [join cwd rel]) ++ anc) st5).
  { apply tried_guarded. exact H4. }
  fold st5.
  set (sib := flat_map (fun level =>
                [join (ancestor Path parent cwd level) rel;
                 join (parent (ancestor Path parent cwd level)) rel]) (seq 1 3)).
  apply (tried_eq ((((([P] ++ envL) ++ [Path_of rel]) ++ [join cwd rel]) ++ anc) ++
                   (if contains "legasys-dev" (path_str cwd) ||
                       contains "legasys" (path_str cwd) then sib else []))).
  { rewrite <- !app_assoc. reflexivity. }
  destruct (contains "legasys-dev" (path_str cwd) || contains "legasys" (path_str cwd)).
  - apply tried_guarded. exact H5.
  - rewrite app_nil_r. destruct (snd st5); exact H5.
Qed.

Lemma not_found_message_layout attempted file_path :
  exists pre mid1 mid2 post,
    not_found_message Path path_str cwd attempted file_path =
    pre ++ enum_lines 1 (firstn 10 attempted) ++ mid1 ++ file_path ++ mid2 ++
    path_str cwd ++ post.
Proof.
  unfold not_found_message.
  exists ("PDF file not found. Attempted " ++ Db.nat_to_string (length attempted) ++
          " paths:" ++ newline).
  exists ((if Nat.ltb 10 (length attempted)
           then "  ... and " ++ Db.nat_to_string (length attempted - 10) ++
                " more paths" ++ newline
           else "") ++ newline ++ "Original path from DB: ").
  exists (newline ++ "Current working directory: ").
  exists (newline ++ newline ++
          "Tip: Set UPLOADS_BASE_DIR environment variable to the base directory " ++
          "containing 'uploads' folder.").
  rewrite <- !str_app_assoc. reflexivity.
Qed.

(** C5.  Resolution tries the fallback chain in the spec's order (the path
    as given; the storage root from the environment; then, for a path that
    starts with "/", the stripped path, the same under the working
    directory, under it and three of its ancestors, and the sibling
    conventions when the working directory mentions "legasys").  The
    attempted list is the chain up to and including the first existing
    candidate, and the file read is the one at that candidate, wherever it
    stands in the chain.  When no candidate exists, the error lists the
    whole chain as attempted; its text enumerates the first ten of them in
    order, then the original path, then the working directory. *)
Theorem resolve_first_existing file_path :
  let chain := candidate_chain Path Path_of path_str join parent cwd getenv file_path in
  resolve_pdf_path Path Path_of path_str join parent cwd exists_p getenv file_path =
    (map path_str (upto_first chain), find exists_p chain) /\
  fetch_pdf_from_path Path Path_of path_str join parent cwd exists_p read_bytes getenv
    file_path =
    match find exists_p chain with
    | Some p => match read_bytes p with
                | Some content => inl content
                | None => inr (OpenError (path_str p))
                end
    | None => inr (FileNotFoundError
                     (not_found_message Path path_str cwd (map path_str chain) file_path))
    end /\
  (exists pre mid1 mid2 post,
     not_found_message Path path_str cwd (map path_str chain) file_path =
     pre ++ enum_lines 1 (firstn 10 (map path_str chain)) ++ mid1 ++ file_path ++ mid2 ++
     path_str cwd ++ post).
Proof.
  intros chain.
  pose proof (resolve_pdf_path_tried file_path) as Ht. fold chain in Ht.
  split; [exact Ht|]. split; [|apply not_found_message_layout].
  unfold fetch_pdf_from_path. rewrite Ht.
  destruct (find exists_p chain) as [p|] eqn:Hf.
  - apply find_some in Hf as [_ Hex]. rewrite Hex. reflexivity.
  - rewrite (upto_first_none _ Hf). reflexivity.
Qed.

End Facts.
End ResolverFacts.

(* ================================================================= *)
(** * Properties of output path computation *)

Module OutputPathFacts.
Import Db PyStr OutputPath.

Section Facts.
Variable Path : Type.
Variable Path_of : string -> Path.
Variable join : Path -> string -> Path.
Variable resolve_p : Path -> Path.
Variable is_absolute : Path -> bool.
Variable cwd : Path.
Variable getenv : string -> option string.
Variable os_name : string.

Lemma truthy_nonempty x : x <> "" -> truthy (Some x) = Some x.
Proof. intros H. simpl. apply String.eqb_neq in H. now rewrite H. Qed.

(** C6 (amended).  Once the query gives a non-empty job id and file name,
    the function always returns a path: it makes no existence test and has
    no other failure.  When the task has no recorded [outputFilePath], the
    path is [resolve(B / "outputs/<job-id>/<name>")], where B is the
    environment's [OUTPUTS_BASE_DIR] or [FILE_STORAGE_PATH] if set and the
    working directory otherwise, and <name> is the file name with the
    characters < > : double-quote / backslash | ? * replaced by underscores and
    the text from its last dot on removed.  When a non-empty [outputFilePath]
    o is recorded, the path is derived from o alone (job id and file name
    play no part): with a base directory B set, [resolve(B / r)], where r is
    o without its leading slashes; otherwise [resolve(o)] if o is absolute,
    and [resolve(cwd / r)] if not. *)
Theorem get_output_base_path_constructed s dfid job file out :
  output_path_query s dfid = Some (Some job, Some file, out) ->
  job <> "" -> file <> "" ->
  (exists p, get_output_base_path Path Path_of join resolve_p is_absolute cwd getenv
               os_name s dfid = inl p) /\
  (truthy out = None ->
   get_output_base_path Path Path_of join resolve_p is_absolute cwd getenv os_name s dfid =
   inl (resolve_p (join (match outputs_base getenv with
                         | Some base => Path_of base
                         | None => cwd
                         end)
                        ("outputs/" ++ job ++ "/" ++
                         strip_extension (sanitize_chars file))))) /\
  (forall o, truthy out = Some o ->
   let r := if startswith_slash o then lstrip_slash o else o in
   get_output_base_path Path Path_of join resolve_p is_absolute cwd getenv os_name s dfid =
   inl (match outputs_base getenv with
        | Some base => resolve_p (join (Path_of base) r)
        | None => if is_absolute (Path_of o) then resolve_p (Path_of o)
                  else resolve_p (join cwd r)
        end)).
Proof.
  intros Hq Hj Hf. unfold get_output_base_path. rewrite Hq.
  rewrite (truthy_nonempty _ Hj), (truthy_nonempty _ Hf).
  split; [|split].
  - destruct (truthy out); eexists; reflexivity.
  - intros Ho. rewrite Ho. destruct (outputs_base getenv); reflexivity.
  - intros o Ho. cbv zeta. rewrite Ho. destruct (outputs_base getenv); [reflexivity|].
    destruct (is_absolute (Path_of o)); [reflexivity|].
    destruct (startswith_slash o); simpl; [destruct (String.eqb os_name "nt")|]; reflexivity.
Qed.

End Facts.

(** Concrete runs on the POSIX model, working directory "/app", no
    environment variables. *)
Definition app_cwd : PosixPath.PPath := PosixPath.parse "/app".

Definition posix_output_path (s : DB) (dfid : string) : PosixPath.PPath + string :=
  get_output_base_path PosixPath.PPath PosixPath.parse PosixPath.join
    (PosixPath.resolve app_cwd) PosixPath.p_abs app_cwd (fun _ => None) "posix" s dfid.

Definition task_with_output (out : option string) : Task :=
  mkTask "t1" "j1" "f1" "a.pdf" (Some "/uploads/a.pdf") DUMMY_TASK_SUMMARY "completed"
         None None None None out 0 0.

Definition c6_store (out : option string) : DB :=
  mkDB [mkJob "j1" "in_progress" "n1" 0]
       [mkDemandFile "f1" "n1" "a.pdf" (Some "/uploads/a.pdf") "not_summarized" 0]
       [task_with_output out] 1 0 [].

(** C6 counterexample: with a recorded [outputFilePath] of "/srv/results/a"
    the result is that path, not "/app/outputs/j1/a". *)
Lemma output_base_path_counterexample :
  posix_output_path (c6_store (Some "/srv/results/a")) "f1" =
    inl (PosixPath.mkPPath true ["srv"; "results"; "a"]) /\
  PosixPath.resolve app_cwd (PosixPath.join app_cwd "outputs/j1/a") =
    PosixPath.mkPPath true ["app"; "outputs"; "j1"; "a"] /\
  PosixPath.mkPPath true ["srv"; "results"; "a"] <>
    PosixPath.mkPPath true ["app"; "outputs"; "j1"; "a"].
Proof.
  split; [vm_compute; reflexivity|]. split; [vm_compute; reflexivity|].
  discriminate.
Qed.

Lemma get_output_base_path_constructed_witness :
  output_path_query (c6_store None) "f1" = Some (Some "j1", Some "a.pdf", None) /\
  posix_output_path (c6_store None) "f1" =
    inl (PosixPath.mkPPath true ["app"; "outputs"; "j1"; "a"]) /\
  output_path_query (c6_store (Some "/srv/results/a")) "f1" =
    Some (Some "j1", Some "a.pdf", Some "/srv/results/a") /\
  posix_output_path (c6_store (Some "/srv/results/a")) "f1" =
    inl (PosixPath.mkPPath true ["srv"; "results"; "a"]).
Proof.
  assert (Hq : output_path_query (c6_store None) "f1" = Some (Some "j1", Some "a.pdf", None))
    by reflexivity.
  assert (Hq' : output_path_query (c6_store (Some "/srv/results/a")) "f1" =
                Some (Some "j1", Some "a.pdf", Some "/srv/results/a")) by reflexivity.
  assert (Hj : "j1" <> "") by discriminate.
  assert (Hf : "a.pdf" <> "") by discriminate.
  split; [exact Hq|]. split.
  - destruct (get_output_base_path_constructed PosixPath.PPath PosixPath.parse
                PosixPath.join (PosixPath.resolve app_cwd) PosixPath.p_abs app_cwd
                (fun _ => None) "posix" (c6_store None) "f1" "j1" "a.pdf" None Hq Hj Hf)
      as [_ [H _]].
    unfold posix_output_path. rewrite (H eq_refl). vm_compute. reflexivity.
  - split; [exact Hq'|].
    destruct (get_output_base_path_constructed PosixPath.PPath PosixPath.parse
                PosixPath.join (PosixPath.resolve app_cwd) PosixPath.p_abs app_cwd
                (fun _ => None) "posix" (c6_store (Some "/srv/results/a")) "f1" "j1" "a.pdf"
                (Some "/srv/results/a") Hq' Hj Hf) as [_ [_ H]].
    unfold posix_output_path. rewrite (H "/srv/results/a" eq_refl). vm_compute. reflexivity.
Defined.

End OutputPathFacts.

(* ================================================================= *)
(** * Properties of the page writer *)

Module WriterFacts.
Import Db Writer.

Lemma wr_length_app (a b : string) :
  String.length (a ++ b) = String.length a + String.length b.
Proof. induction a as [|c a IH]; simpl; [reflexivity|now rewrite IH]. Qed.

Lemma wr_app_cancel_l (p a b : string) : p ++ a = p ++ b -> a = b.
Proof. induction p as [|c p IH]; simpl; [auto|intros H; injection H; auto]. Qed.

Lemma wr_app_cancel_r (a b s : string) : a ++ s = b ++ s -> a = b.
Proof.
  revert b. induction a as [|c a IH]; intros [|c' b]; simpl; intros H.
  - reflexivity.
  - apply (f_equal String.length) in H. simpl in H.
    rewrite wr_length_app in H. lia.
  - apply (f_equal String.length) in H. simpl in H.
    rewrite wr_length_app in H. lia.
  - injection H as -> H. f_equal. now apply IH.
Qed.

Lemma uint_of_string_zeros k s :
  NilEmpty.uint_of_string (zeros k ++ s) =
  option_map (Nat.iter k D0) (NilEmpty.uint_of_string s).
Proof.
  induction k as [|k IH]; simpl.
  - now destruct (NilEmpty.uint_of_string s).
  - rewrite IH. now destruct (NilEmpty.uint_of_string s).
Qed.

Lemma of_uint_iter_D0 k u : Nat.of_uint (Nat.iter k D0 u) = Nat.of_uint u.
Proof. induction k as [|k IH]; simpl; [reflexivity|exact IH]. Qed.

Lemma nat_to_string_parse n :
  exists u, NilEmpty.uint_of_string (nat_to_string n) = Some u /\ Nat.of_uint u = n.
Proof.
  unfold nat_to_string.
  pose proof (DecimalNat.Unsigned.of_to n) as Hn.
  destruct (Nat.to_uint n) as [|d|d|d|d|d|d|d|d|d|d];
    [exists (D0 Nil); split; [reflexivity|exact Hn]|..];
    (eexists; split; [apply NilEmpty.usu|exact Hn]).
Qed.

Lemma pad3_parse n :
  option_map Nat.of_uint (NilEmpty.uint_of_string (pad3 (nat_to_string n))) = Some n.
Proof.
  unfold pad3. rewrite uint_of_string_zeros.
  destruct (nat_to_string_parse n) as (u & Hu & Hn). rewrite Hu. simpl.
  now rewrite of_uint_iter_D0, Hn.
Qed.

Lemma page_filename_inj n m : page_filename n = page_filename m -> n = m.
Proof.
  unfold page_filename. intros H.
  apply wr_app_cancel_l, wr_app_cancel_r in H.
  apply (f_equal (fun s => option_map Nat.of_uint (NilEmpty.uint_of_string s))) in H.
  rewrite !pad3_parse in H. congruence.
Qed.

Section Facts.
Variable Path : Type.
Variable Path_eq_dec : forall p q : Path, {p = q} + {p <> q}.
Variable join : Path -> string -> Path.
Variable lineage : Path -> list Path.
Variable resolve_p : Path -> Path.
Variable utf8_encode : string -> list Byte.byte.
Hypothesis join_inj : forall d a b, join d a = join d b -> a = b.

Abbreviation mkdirs := (mkdirs Path Path_eq_dec).
Abbreviation open_write := (open_write Path Path_eq_dec utf8_encode).
Abbreviation save_text_to_file := (save_text_to_file Path Path_eq_dec join lineage utf8_encode).
Abbreviation save_pages := (save_pages Path Path_eq_dec join lineage utf8_encode).
Abbreviation write_pages := (write_pages Path Path_eq_dec join lineage resolve_p utf8_encode).

Lemma mkdirs_keep ps fs fs1 :
  mkdirs ps fs = Some fs1 -> forall p, fs p <> None -> fs1 p = fs p.
Proof.
  revert fs. induction ps as [|q ps IH]; simpl; intros fs H p Hp.
  - now injection H as <-.
  - destruct (fs q) as [[b|]|] eqn:Eq; [discriminate|now apply IH|].
    rewrite (IH _ H p); unfold Writer.upd; destruct (Path_eq_dec p q); subst; congruence.
Qed.

Lemma mkdirs_dir ps fs fs1 :
  mkdirs ps fs = Some fs1 -> forall p, In p ps -> fs1 p = Some DirE.
Proof.
  revert fs. induction ps as [|q ps IH]; simpl; intros fs H p Hp; [contradiction|].
  destruct (fs q) as [[b|]|] eqn:Eq; [discriminate| |].
  - destruct Hp as [<-|Hp]; [|eauto].
    rewrite (mkdirs_keep _ _ _ H); congruence.
  - destruct Hp as [<-|Hp]; [|eauto].
    rewrite (mkdirs_keep _ _ _ H); unfold Writer.upd; destruct (Path_eq_dec q q); congruence.
Qed.

Lemma mkdirs_all_dir ps fs :
  (forall p, In p ps -> fs p = Some DirE) -> mkdirs ps fs = Some fs.
Proof.
  induction ps as [|q ps IH]; simpl; intros H; [reflexivity|].
  rewrite (H q (or_introl eq_refl)). apply IH; auto.
Qed.

Lemma mkdirs_dir_persist ps fs fs1 p :
  mkdirs ps fs = Some fs1 -> fs p = Some DirE -> fs1 p = Some DirE.
Proof. intros H Hp. rewrite (mkdirs_keep _ _ _ H); congruence. Qed.

Lemma open_write_spec fp c fs fs1 :
  open_write fp c fs = Some fs1 ->
  fs fp <> Some DirE /\ fs1 fp = Some (FileE (utf8_encode c)) /\
  (forall q, q <> fp -> fs1 q = fs q).
Proof.
  unfold Writer.open_write. destruct (fs fp) as [[b|]|] eqn:E; try discriminate;
    intros H; injection H as <-; unfold Writer.upd;
    (split; [congruence|split; [destruct (Path_eq_dec fp fp); congruence
                               |intros q Hq; destruct (Path_eq_dec q fp); congruence]]).
Qed.

Lemma save_text_to_file_spec d name c fs fs1 :
  save_text_to_file d name c fs = Some fs1 ->
  (forall p, fs p = Some DirE -> fs1 p = Some DirE) /\
  fs1 (join d name) = Some (FileE (utf8_encode c)) /\
  (forall q, q <> join d name -> fs q <> None -> fs1 q = fs q) /\
  (forall p, In p (lineage d) -> fs1 p = Some DirE).
Proof.
  unfold Writer.save_text_to_file, Writer.mkdir_p.
  destruct (mkdirs (lineage d) fs) as [fs0|] eqn:E; [|discriminate].
  intros H. apply open_write_spec in H as (Hnd & Hw & Ho).
  split; [|split; [exact Hw|split]].
  - intros p Hp. destruct (Path_eq_dec p (join d name)) as [->|ne].
    + rewrite (mkdirs_keep _ _ _ E) in Hnd; congruence.
    + rewrite Ho by exact ne. rewrite (mkdirs_keep _ _ _ E); congruence.
  - intros q Hq Hn. rewrite Ho by exact Hq. now apply (mkdirs_keep _ _ _ E).
  - intros p Hp. pose proof (mkdirs_dir _ _ _ E p Hp) as Hd.
    destruct (Path_eq_dec p (join d name)) as [->|ne]; [congruence|].
    now rewrite Ho.
Qed.

Lemma save_pages_keep raw i ts fs fs' :
  save_pages raw i ts fs = Some fs' ->
  forall q, (forall m, i <= m -> q <> join raw (page_filename m)) ->
  fs q <> None -> fs' q = fs q.
Proof.
  revert i fs. induction ts as [|t ts IH]; simpl; intros i fs H q Hq Hn.
  - now injection H as <-.
  - destruct (save_text_to_file raw (page_filename i) (format_page_text i t) fs)
      as [fs1|] eqn:E; [|discriminate].
    apply save_text_to_file_spec in E as (_ & _ & Ho & _).
    assert (Hq1 : fs1 q = fs q) by (apply Ho; [apply Hq; lia|exact Hn]).
    rewrite (IH _ _ H q); [exact Hq1| |congruence].
    intros m Hm. apply Hq. lia.
Qed.

Lemma save_pages_dirs raw i ts fs fs' :
  save_pages raw i ts fs = Some fs' ->
  forall p, fs p = Some DirE -> fs' p = Some DirE.
Proof.
  revert i fs. induction ts as [|t ts IH]; simpl; intros i fs H p Hp.
  - now injection H as <-.
  - destruct (save_text_to_file raw (page_filename i) (format_page_text i t) fs)
      as [fs1|] eqn:E; [|discriminate].
    apply save_text_to_file_spec in E as (Hd & _).
    eapply IH; [exact H|]. now apply Hd.
Qed.

Lemma save_pages_files raw i ts fs fs' :
  save_pages raw i ts fs = Some fs' ->
  forall k t, nth_error ts k = Some t ->
  fs' (join raw (page_filename (i + k))) =
    Some (FileE (utf8_encode (format_page_text (i + k) t))).
Proof.
  revert i fs. induction ts as [|t0 ts IH]; simpl; intros i fs H k t Hk.
  - destruct k; discriminate.
  - destruct (save_text_to_file raw (page_filename i) (format_page_text i t0) fs)
      as [fs1|] eqn:E; [|discriminate].
    destruct k as [|k]; simpl in Hk.
    + injection Hk as <-. rewrite Nat.add_0_r.
      apply save_text_to_file_spec in E as (_ & Hw & _).
      rewrite (save_pages_keep _ _ _ _ _ H); [exact Hw| |congruence].
      intros m Hm Heq. apply join_inj, page_filename_inj in Heq. lia.
    + replace (i + S k) with (S i + k) by lia. eapply IH; eassumption.
Qed.

Lemma save_pages_rerun raw i ts g ref :
  (forall p, g p = ref p) ->
  (forall p, In p (lineage raw) -> ref p = Some DirE) ->
  (forall k t, nth_error ts k = Some t ->
     ref (join raw (page_filename (i + k))) =
       Some (FileE (utf8_encode (format_page_text (i + k) t)))) ->
  exists g', save_pages raw i ts g = Some g' /\ forall p, g' p = ref p.
Proof.
  revert i g. induction ts as [|t ts IH]; simpl; intros i g Hg Hl Hf.
  - now exists g.
  - unfold Writer.save_text_to_file, Writer.mkdir_p.
    rewrite mkdirs_all_dir by (intros p Hp; rewrite Hg; now apply Hl).
    unfold Writer.open_write.
    pose proof (Hf 0 t eq_refl) as H0. rewrite Nat.add_0_r in H0.
    rewrite Hg, H0.
    apply IH; [|exact Hl|].
    + intros p. unfold Writer.upd.
      destruct (Path_eq_dec p (join raw (page_filename i))) as [->|ne];
        [now rewrite H0|apply Hg].
    + intros k t' Hk. replace (S i + k) with (i + S k) by lia. now apply Hf.
Qed.

(** C7.  After a successful run of the page writer on a base directory:
    the pages go to the [raw_extract_by_page] subdirectory of the resolved
    base directory; for every 1-based page index n with text t, the file
    [page_filename n] there ("page_" followed by n left-padded with zeros
    to three digits and ".txt") holds exactly the UTF-8 encoding of
    [format_page_text n t] (the text between the lines "=== PAGE n START ==="
    and "=== PAGE n END ==="), whatever the file held before; and running
    the writer again with the same input succeeds and leaves every path
    with the same content. *)
Theorem write_pages_layout base texts fs raw fs' :
  write_pages base texts fs = Some (raw, fs') ->
  raw = join (resolve_p base) "raw_extract_by_page" /\
  (forall k t, nth_error texts k = Some t ->
     fs' (join raw (page_filename (S k))) =
       Some (FileE (utf8_encode (format_page_text (S k) t)))) /\
  (exists fs'', write_pages base texts fs' = Some (raw, fs'') /\
                forall p, fs'' p = fs' p).
Proof.
  unfold Writer.write_pages, Writer.create_subdirectories, Writer.mkdir_p.
  set (rb := resolve_p base).
  set (rawd := join rb "raw_extract_by_page").
  set (chd := join rb "chunks").
  destruct (mkdirs (lineage rb) fs) as [f1|] eqn:E1; [|discriminate].
  destruct (mkdirs (lineage rawd) f1) as [f2|] eqn:E2; [|discriminate].
  destruct (mkdirs (lineage chd) f2) as [f3|] eqn:E3; [|discriminate].
  destruct (save_pages rawd 1 texts f3) as [f4|] eqn:E4; [|discriminate].
  intros H; injection H as <- <-.
  split; [reflexivity|]. split.
  - intros k t Hk. exact (save_pages_files _ _ _ _ _ E4 k t Hk).
  - assert (D1 : forall p, In p (lineage rb) -> f4 p = Some DirE).
    { intros p Hp. apply (save_pages_dirs _ _ _ _ _ E4).
      apply (mkdirs_dir_persist _ _ _ _ E3), (mkdirs_dir_persist _ _ _ _ E2).
      exact (mkdirs_dir _ _ _ E1 p Hp). }
    assert (D2 : forall p, In p (lineage rawd) -> f4 p = Some DirE).
    { intros p Hp. apply (save_pages_dirs _ _ _ _ _ E4).
      apply (mkdirs_dir_persist _ _ _ _ E3).
      exact (mkdirs_dir _ _ _ E2 p Hp). }
    assert (D3 : forall p, In p (lineage chd) -> f4 p = Some DirE).
    { intros p Hp. apply (save_pages_dirs _ _ _ _ _ E4).
      exact (mkdirs_dir _ _ _ E3 p Hp). }
    rewrite (mkdirs_all_dir _ _ D1), (mkdirs_all_dir _ _ D2), (mkdirs_all_dir _ _ D3).
    destruct (save_pages_rerun rawd 1 texts f4 f4) as (g & Hg & Hgf);
      [reflexivity|exact D2|exact (save_pages_files _ _ _ _ _ E4)|].
    rewrite Hg. now exists g.
Qed.

End Facts.

(** A concrete instance: paths as lists of components, ASCII text. *)
Definition lpath_join (p : list string) (a : string) : list string := (p ++ [a])%list.

Definition lpath_lineage (p : list string) : list (list string) :=
  map (fun k => firstn k p) (seq 1 (length p)).

Definition ascii_bytes (s : string) : list Byte.byte :=
  map Ascii.byte_of_ascii (list_ascii_of_string s).

Definition lpath_eq_dec : forall p q : list string, {p = q} + {p <> q} :=
  list_eq_dec string_dec.

Lemma lpath_join_inj d a b : lpath_join d a = lpath_join d b -> a = b.
Proof. unfold lpath_join. intros H. now apply app_inj_tail in H as [_ ->]. Qed.

(** A file system holding a stale [page_001.txt]. *)
Definition stale_fs : FS (list string) :=
  fun q => if lpath_eq_dec q ["out"; "raw_extract_by_page"; "page_001.txt"]
           then Some (FileE [Byte.x00])
           else None.

Definition lpath_write_pages : list string -> list string -> FS (list string) ->
                               option (list string * FS (list string)) :=
  write_pages (list string) lpath_eq_dec lpath_join lpath_lineage (fun p => p) ascii_bytes.

Lemma write_pages_layout_witness :
  exists raw fs',
    lpath_write_pages ["out"] ["hello"; "world"] stale_fs = Some (raw, fs') /\
    fs' ["out"; "raw_extract_by_page"; "page_001.txt"] =
      Some (FileE (ascii_bytes (format_page_text 1 "hello"))).
Proof.
  destruct (lpath_write_pages ["out"] ["hello"; "world"] stale_fs) as [[raw fs']|] eqn:E;
    [|vm_compute in E; discriminate].
  exists raw, fs'. split; [reflexivity|].
  destruct (write_pages_layout (list string) lpath_eq_dec lpath_join lpath_lineage
              (fun p => p) ascii_bytes lpath_join_inj ["out"] ["hello"; "world"]
              stale_fs raw fs' E) as (Hraw & Hf & _).
  subst raw. exact (Hf 0 "hello" eq_refl).
Defined.

End WriterFacts.

(* ================================================================= *)
(** * Properties of the repository queries *)

Module RepoFacts.
Import Db RepoMore.

Lemma filter_length_le {A} (f : A -> bool) l : length (filter f l) <= length l.
Proof. induction l as [|x l IH]; simpl; [lia|destruct (f x); simpl; lia]. Qed.

Lemma filter_length_all {A} (f : A -> bool) l :
  length (filter f l) = length l <-> Forall (fun x => f x = true) l.
Proof.
  induction l as [|x l IH]; simpl; [split; auto|].
  pose proof (filter_length_le f l).
  destruct (f x) eqn:E; simpl; split; intros H'.
  - constructor; [exact E|apply IH; lia].
  - inversion H' as [|? ? _ Hl]; subst. apply IH in Hl. lia.
  - lia.
  - inversion H'; congruence.
Qed.

Lemma filter_length_disj {A} (f g : A -> bool) l :
  (forall x, f x = true -> g x = false) ->
  length (filter f l) + length (filter g l) = length (filter (fun x => f x || g x) l).
Proof.
  intros Hd. induction l as [|x l IH]; simpl; [reflexivity|].
  destruct (f x) eqn:Ef; simpl.
  - rewrite (Hd x Ef). simpl. lia.
  - destruct (g x); simpl; lia.
Qed.

(** [check_all_tasks_completed] is true exactly when the job has at least
    one task and every task of the job is [completed] or [failed]: in spite
    of its name, failed tasks count as done. *)
Theorem check_all_tasks_completed_spec s jid :
  let rows := filter (fun t => String.eqb (t_jobId t) jid) (tasks s) in
  check_all_tasks_completed s jid = true <->
  rows <> [] /\ Forall (fun t => t_status t = "completed" \/ t_status t = "failed") rows.
Proof.
  cbv zeta. unfold check_all_tasks_completed.
  set (rows := filter (fun t => String.eqb (t_jobId t) jid) (tasks s)).
  rewrite filter_length_disj.
  2:{ intros t Ht. apply String.eqb_eq in Ht. rewrite Ht. reflexivity. }
  destruct rows as [|t0 rs] eqn:Er.
  - simpl. split; [discriminate|intros [H _]; contradiction].
  - assert (Hne : Nat.eqb (length (t0 :: rs)) 0 = false) by reflexivity.
    rewrite Hne, Nat.eqb_eq, filter_length_all. split.
    + intros H. split; [discriminate|].
      eapply Forall_impl; [|exact H]. intros t Ht. simpl in Ht.
      apply orb_true_iff in Ht as [Ht|Ht]; apply String.eqb_eq in Ht; auto.
    + intros [_ H]. eapply Forall_impl; [|exact H]. intros t [Ht|Ht]; simpl;
        rewrite Ht; reflexivity.
Qed.

Lemma check_all_demand_files_summarized_iff s jid :
  check_all_demand_files_summarized s jid = true <->
  job_demand_files s jid <> [] /\ Forall (fun d => is_summarized d = true) (job_demand_files s jid).
Proof.
  unfold check_all_demand_files_summarized.
  destruct (job_demand_files s jid) as [|d0 ds].
  - simpl. split; [discriminate|intros [H _]; contradiction].
  - assert (Hne : Nat.eqb (length (d0 :: ds)) 0 = false) by reflexivity.
    rewrite Hne, Nat.eqb_eq, filter_length_all. split; [intros H; split; [discriminate|exact H]|].
    intros [_ H]; exact H.
Qed.

(** [check_all_demand_files_summarized] is true exactly when the job (joined
    through its demand note) has at least one demand file and every one of
    them has [summaryStatus = 'summarized']. *)
Theorem check_all_demand_files_summarized_spec s jid :
  check_all_demand_files_summarized s jid = true <->
  job_demand_files s jid <> [] /\
  Forall (fun d => df_summaryStatus d = "summarized") (job_demand_files s jid).
Proof.
  rewrite check_all_demand_files_summarized_iff. split; intros [H1 H2]; split; auto;
    (eapply Forall_impl; [|exact H2]); intros d Hd; unfold is_summarized in *;
    [apply String.eqb_eq in Hd; exact Hd|rewrite Hd; reflexivity].
Qed.

(** An insertion sort on a natural-number key. *)
Section InsertionSort.
Variable A : Type.
Variable key : A -> nat.
Variable ins : A -> list A -> list A.
Hypothesis ins_nil : forall x, ins x [] = [x].
Hypothesis ins_cons : forall x y l,
  ins x (y :: l) = if Nat.ltb (key x) (key y) then x :: y :: l else y :: ins x l.

Definition key_le (a b : A) : Prop := key a <= key b.

Lemma ins_perm x l : Permutation (ins x l) (x :: l).
Proof.
  induction l as [|y l IH]; [rewrite ins_nil; reflexivity|].
  rewrite ins_cons. destruct (Nat.ltb (key x) (key y)); [reflexivity|].
  transitivity (y :: x :: l); [now constructor|apply perm_swap].
Qed.

Lemma ins_hdrel y x l :
  key y <= key x -> HdRel key_le y l -> HdRel key_le y (ins x l).
Proof.
  intros Hyx Hh. destruct l as [|z l]; [rewrite ins_nil; now constructor|].
  rewrite ins_cons. destruct (Nat.ltb (key x) (key z)); constructor; [exact Hyx|].
  inversion Hh; assumption.
Qed.

Lemma ins_sorted x l : Sorted key_le l -> Sorted key_le (ins x l).
Proof.
  induction l as [|y l IH]; intros Hs; [rewrite ins_nil; repeat constructor|].
  rewrite ins_cons. destruct (Nat.ltb (key x) (key y)) eqn:E.
  - apply Nat.ltb_lt in E. constructor; [exact Hs|constructor; unfold key_le; lia].
  - apply Nat.ltb_ge in E. inversion Hs as [|? ? Hl Hh]; subst.
    constructor; [now apply IH|]. apply ins_hdrel; [exact E|exact Hh].
Qed.

Lemma fold_ins_perm l acc :
  Permutation (fold_left (fun acc x => ins x acc) l acc) (l ++ acc).
Proof.
  revert acc. induction l as [|x l IH]; intros acc; simpl; [reflexivity|].
  rewrite IH. rewrite ins_perm. symmetry; apply Permutation_middle.
Qed.

Lemma fold_ins_sorted l acc :
  Sorted key_le acc -> Sorted key_le (fold_left (fun acc x => ins x acc) l acc).
Proof.
  revert acc. induction l as [|x l IH]; intros acc Hs; simpl; [exact Hs|].
  apply IH. now apply ins_sorted.
Qed.

Lemma insertion_sort_correct l :
  Permutation (fold_left (fun acc x => ins x acc) l []) l /\
  Sorted key_le (fold_left (fun acc x => ins x acc) l []).
Proof.
  split; [rewrite fold_ins_perm, app_nil_r; reflexivity|].
  apply fold_ins_sorted. constructor.
Qed.

End InsertionSort.

Lemma sort_by_created_correct l :
  Permutation (sort_by_created l) l /\
  Sorted (fun a b => df_createdAt a <= df_createdAt b) (sort_by_created l).
Proof.
  exact (insertion_sort_correct DemandFile df_createdAt insert_by_created
           (fun _ => eq_refl) (fun _ _ _ => eq_refl) l).
Qed.

End RepoFacts.

(* ================================================================= *)
(** * Properties of the job status transitions and of a whole run *)

Module RunFacts.
Import Db Orchestrator LedgerFacts RepoFacts.

Definition job_key (j : Job) : string * string := (job_id j, job_demandNoteId j).

(** A map over demand-file rows that keeps ids and demand notes and never
    turns a summarized row back. *)
Definition df_pres (F : DemandFile -> DemandFile) : Prop :=
  forall d, df_id (F d) = df_id d /\ df_demandNoteId (F d) = df_demandNoteId d /\
            (is_summarized d = true -> is_summarized (F d) = true).

(** How a state may evolve while a job runs: demand-file rows are mapped
    by such a function, job rows keep their ids and demand notes, and tasks
    keep their demand-file ids. *)
Definition Frame (t t' : DB) : Prop :=
  (exists F, df_pres F /\ demand_files t' = map F (demand_files t)) /\
  map job_key (jobs t') = map job_key (jobs t) /\
  map t_demandFileId (tasks t') = map t_demandFileId (tasks t).

(** All rows with demand-file id [x] are summarized. *)
Definition Done (t : DB) (x : string) : Prop :=
  forall d, In d (demand_files t) -> df_id d = x -> is_summarized d = true.

Definition StatusInv (jid : string) (t : DB) : Prop :=
  job_status_by_id t jid = Some "in_progress" \/
  (job_status_by_id t jid = Some "completed" /\
   check_all_demand_files_summarized t jid = true).

Lemma frame_refl t : Frame t t.
Proof.
  split; [|split; reflexivity]. exists (fun d => d). split; [|now rewrite map_id].
  intros d; auto.
Qed.

Lemma frame_trans t1 t2 t3 : Frame t1 t2 -> Frame t2 t3 -> Frame t1 t3.
Proof.
  intros [[F1 [H1 D1]] [J1 T1]] [[F2 [H2 D2]] [J2 T2]].
  split; [|split; congruence].
  exists (fun d => F2 (F1 d)). split.
  - intros d. destruct (H1 d) as (a1 & b1 & c1). destruct (H2 (F1 d)) as (a2 & b2 & c2).
    split; [congruence|split; [congruence|auto]].
  - rewrite D2, D1, map_map. reflexivity.
Qed.

Lemma frame_same t t' :
  jobs t' = jobs t -> demand_files t' = demand_files t ->
  map t_demandFileId (tasks t') = map t_demandFileId (tasks t) -> Frame t t'.
Proof.
  intros J D T. split; [|split; [now rewrite J|exact T]].
  exists (fun d => d). split; [intros d; auto|now rewrite D, map_id].
Qed.

Lemma map_dfid {f : Task -> Task} ts :
  (forall t, t_demandFileId (f t) = t_demandFileId t) ->
  map t_demandFileId (map f ts) = map t_demandFileId ts.
Proof. intros H. rewrite map_map. apply map_ext. exact H. Qed.

Lemma set_task_in_progress_dfid tid pid now t :
  t_demandFileId (set_task_in_progress tid pid now t) = t_demandFileId t.
Proof. unfold set_task_in_progress; destruct (String.eqb (t_id t) tid); reflexivity. Qed.

Lemma set_task_completed_dfid tid out now t :
  t_demandFileId (set_task_completed tid out now t) = t_demandFileId t.
Proof. unfold set_task_completed; destruct (String.eqb (t_id t) tid); reflexivity. Qed.

Lemma set_task_failed_dfid tid now t :
  t_demandFileId (set_task_failed tid now t) = t_demandFileId t.
Proof. unfold set_task_failed; destruct (String.eqb (t_id t) tid); reflexivity. Qed.

Lemma frame_update_job_status t jid st : Frame t (update_job_status t jid st).
Proof.
  split; [|split; [|reflexivity]].
  - exists (fun d => d). split; [intros d; auto|simpl; now rewrite map_id].
  - simpl. rewrite map_map. apply map_ext. intros j. unfold job_key.
    now rewrite set_job_status_id, set_job_status_note.
Qed.

Lemma frame_check t jid : Frame t (check_and_update_job_status t jid).
Proof.
  rewrite check_and_update_job_status_eq.
  destruct (check_all_demand_files_summarized t jid); [|apply frame_refl].
  exact (frame_update_job_status (log_call t (CallJobCompleted jid)) jid "completed").
Qed.

Lemma frame_mark_df t x o : Frame t (mark_demand_file_summarized t x o).
Proof.
  split; [|split; reflexivity].
  exists (set_df_summarized x o). split; [|reflexivity].
  intros d. unfold set_df_summarized.
  destruct (String.eqb (df_id d) x); simpl; auto.
Qed.

Lemma frame_mark_task_in_progress t tid pid : Frame t (mark_task_in_progress t tid pid).
Proof.
  apply frame_same; try reflexivity; simpl; apply map_dfid; apply set_task_in_progress_dfid.
Qed.

Lemma frame_mark_task_completed t tid out n jid :
  Frame t (mark_task_completed t tid out n jid).
Proof.
  unfold mark_task_completed. eapply frame_trans; [|apply frame_check].
  apply frame_same; try reflexivity; simpl; apply map_dfid; apply set_task_completed_dfid.
Qed.

Lemma frame_mark_task_failed t tid jid r : Frame t (mark_task_failed t tid jid r).
Proof.
  unfold mark_task_failed. eapply frame_trans; [|apply frame_check].
  apply frame_same; try reflexivity; simpl; apply map_dfid; apply set_task_failed_dfid.
Qed.

Section Run.
Variable proc : DB -> string -> (string * nat) + string.
Variable pid : nat.
Variable jid : string.

Lemma frame_process t df : Frame t (process_demand_file proc pid jid t df).
Proof.
  unfold process_demand_file.
  destruct (get_task_by_demand_file_id t (df_id df)) as [task|]; [|apply frame_refl].
  eapply frame_trans; [apply frame_mark_task_in_progress|].
  destruct (proc _ _) as [[bp n]|m].
  - eapply frame_trans; [apply frame_mark_task_completed|apply frame_mark_df].
  - apply frame_mark_task_failed.
Qed.

Lemma frame_fold L t : Frame t (fold_left (process_demand_file proc pid jid) L t).
Proof.
  revert t. induction L as [|df L IH]; intros t; simpl; [apply frame_refl|].
  eapply frame_trans; [apply frame_process|apply IH].
Qed.

End Run.

Lemma filter_map_pres {A} (f : A -> bool) (F : A -> A) l :
  (forall x, f (F x) = f x) -> filter f (map F l) = map F (filter f l).
Proof.
  intros H. induction l as [|x l IH]; simpl; [reflexivity|].
  rewrite H. destruct (f x); simpl; rewrite IH; reflexivity.
Qed.

Lemma job_demand_files_map t t' F jid :
  df_pres F -> demand_files t' = map F (demand_files t) ->
  map job_key (jobs t') = map job_key (jobs t) ->
  job_demand_files t' jid = map F (job_demand_files t jid).
Proof.
  intros HF HD HJ. unfold job_demand_files. rewrite HD.
  generalize (jobs t') (jobs t) HJ. clear HJ. intros js' js. revert js'.
  induction js as [|j js IH]; intros [|j' js'] H; simpl in H; try discriminate;
    simpl; [reflexivity|].
  unfold job_key at 1 3 in H. injection H as Hid Hnote Hr.
  rewrite Hid, Hnote, map_app. f_equal; [|now apply IH].
  destruct (String.eqb (job_id j) jid); [|reflexivity].
  apply filter_map_pres. intros d. now rewrite (proj1 (proj2 (HF d))).
Qed.

Lemma job_demand_files_in t jid d :
  In d (job_demand_files t jid) -> In d (demand_files t).
Proof.
  unfold job_demand_files. intros H. apply in_flat_map in H as [j [_ H]].
  destruct (String.eqb (job_id j) jid); [|contradiction].
  apply filter_In in H. exact (proj1 H).
Qed.

Lemma check_all_frame t t' jid :
  Frame t t' -> check_all_demand_files_summarized t jid = true ->
  check_all_demand_files_summarized t' jid = true.
Proof.
  intros [[F [HF HD]] [HJ _]]. rewrite !check_all_demand_files_summarized_iff.
  rewrite (job_demand_files_map t t' F jid HF HD HJ). intros [Hne Hall]. split.
  - destruct (job_demand_files t jid); [contradiction|discriminate].
  - apply Forall_map. eapply Forall_impl; [|exact Hall].
    intros d Hd. exact (proj2 (proj2 (HF d)) Hd).
Qed.

Lemma done_frame t t' x : Frame t t' -> Done t x -> Done t' x.
Proof.
  intros [[F [HF HD]] _] Hd d' Hin Hid. rewrite HD in Hin.
  apply in_map_iff in Hin as [d [<- Hin]]. destruct (HF d) as (Hi & _ & Hs).
  apply Hs. apply Hd; [exact Hin|congruence].
Qed.

Lemma status_after_complete t jid c st :
  job_status_by_id t jid = Some st ->
  job_status_by_id (update_job_status (log_call t c) jid "completed") jid = Some "completed".
Proof.
  unfold job_status_by_id. destruct (get_job_by_id t jid) as [j|] eqn:Ej; [|discriminate].
  intros _. assert (Ej' : get_job_by_id (log_call t c) jid = Some j) by exact Ej.
  destruct (get_job_by_id_update _ jid "completed" j Ej') as [H1 H2].
  rewrite H1. exact (f_equal Some H2).
Qed.

Lemma inv_same_jobs jid t t' :
  jobs t' = jobs t -> Frame t t' -> StatusInv jid t -> StatusInv jid t'.
Proof.
  intros HJ HF Hi.
  assert (Hs : job_status_by_id t' jid = job_status_by_id t jid)
    by (unfold job_status_by_id, get_job_by_id; now rewrite HJ).
  unfold StatusInv. rewrite Hs.
  destruct Hi as [H|[H Hc]]; [now left|right; split; [exact H|]].
  exact (check_all_frame t t' jid HF Hc).
Qed.

Lemma inv_check jid t : StatusInv jid t -> StatusInv jid (check_and_update_job_status t jid).
Proof.
  intros Hi. rewrite check_and_update_job_status_eq.
  destruct (check_all_demand_files_summarized t jid) eqn:Ec; [|exact Hi].
  right. split.
  - destruct Hi as [H|[H _]]; eapply status_after_complete; exact H.
  - rewrite check_all_update. exact Ec.
Qed.

Lemma inv_process proc pid jid t df :
  StatusInv jid t -> StatusInv jid (process_demand_file proc pid jid t df).
Proof.
  intros Hi. unfold process_demand_file.
  destruct (get_task_by_demand_file_id t (df_id df)) as [task|]; [|exact Hi].
  assert (H1 : StatusInv jid (mark_task_in_progress t (t_id task) pid))
    by (apply (inv_same_jobs jid t); [reflexivity|apply frame_mark_task_in_progress|exact Hi]).
  set (s1 := mark_task_in_progress t (t_id task) pid) in *.
  destruct (proc _ _) as [[bp n]|m].
  - apply (inv_same_jobs jid (mark_task_completed s1 (t_id task) bp n jid));
      [reflexivity|apply frame_mark_df|].
    unfold mark_task_completed. apply inv_check.
    apply (inv_same_jobs jid _ _ eq_refl); [|exact H1].
    apply frame_same; try reflexivity; simpl; apply map_dfid; apply set_task_completed_dfid.
  - unfold mark_task_failed. apply inv_check.
    apply (inv_same_jobs jid _ _ eq_refl); [|exact H1].
    apply frame_same; try reflexivity; simpl; apply map_dfid; apply set_task_failed_dfid.
Qed.

Lemma inv_fold proc pid jid L t :
  StatusInv jid t -> StatusInv jid (fold_left (process_demand_file proc pid jid) L t).
Proof.
  revert t. induction L as [|df L IH]; intros t Hi; simpl; [exact Hi|].
  apply IH. now apply inv_process.
Qed.

Lemma job_demand_files_after_start s jid :
  job_demand_files (create_tasks_for_job (mark_job_in_progress s jid) jid) jid =
  job_demand_files s jid.
Proof.
  destruct (create_tasks_for_job_props (mark_job_in_progress s jid) jid) as (HJ & HD & _).
  rewrite (job_demand_files_ext _ _ jid HJ HD).
  exact (proj2 (proj2 (proj2 (proj2 (mark_job_in_progress_props s jid))))).
Qed.

Lemma status_after_start s jid j :
  get_job_by_id s jid = Some j ->
  job_status_by_id (create_tasks_for_job (mark_job_in_progress s jid) jid) jid =
  Some "in_progress".
Proof.
  intros Hj.
  destruct (create_tasks_for_job_props (mark_job_in_progress s jid) jid) as (HJ & _).
  unfold job_status_by_id, get_job_by_id. rewrite HJ.
  assert (Hj' : get_job_by_id (log_call s (CallJobInProgress jid)) jid = Some j) by exact Hj.
  destruct (get_job_by_id_update _ jid "in_progress" j Hj') as [H1 H2].
  unfold get_job_by_id in H1. unfold mark_job_in_progress. rewrite H1. exact (f_equal Some H2).
Qed.

(** The run of [main] on a job with work to do: the loop over the fetched
    files, then the final status check. *)
Lemma main_run_eq proc pid s jid j prog rest :
  get_job_by_id s jid = Some j ->
  filter is_not_summarized (job_demand_files s jid) <> [] ->
  exists d ds,
    get_demand_files_for_job (create_tasks_for_job (mark_job_in_progress s jid) jid) jid =
      d :: ds /\
    snd (main proc pid (prog :: jid :: rest) s) =
    check_and_update_job_status
      (fold_left (process_demand_file proc pid jid) (d :: ds)
                 (create_tasks_for_job (mark_job_in_progress s jid) jid)) jid.
Proof.
  intros Hj Hne. unfold main, main_job. rewrite Hj. cbv zeta.
  destruct (get_demand_files_for_job (create_tasks_for_job (mark_job_in_progress s jid) jid) jid)
    as [|d ds] eqn:Eg.
  - exfalso. apply Hne.
    destruct (sort_by_created_correct
                (filter is_not_summarized
                   (job_demand_files (create_tasks_for_job (mark_job_in_progress s jid) jid) jid)))
      as [Hp _].
    unfold get_demand_files_for_job in Eg. rewrite Eg, job_demand_files_after_start in Hp.
    exact (Permutation_nil Hp).
  - exists d, ds. split; reflexivity.
Qed.

Lemma main_status_core proc pid s jid j prog rest :
  get_job_by_id s jid = Some j ->
  filter is_not_summarized (job_demand_files s jid) <> [] ->
  let s' := snd (main proc pid (prog :: jid :: rest) s) in
  job_status_by_id s' jid =
  Some (if check_all_demand_files_summarized s' jid then "completed" else "in_progress").
Proof.
  intros Hj Hne. cbv zeta.
  destruct (main_run_eq proc pid s jid j prog rest Hj Hne) as (d & ds & _ & Es).
  rewrite Es.
  set (s3 := fold_left (process_demand_file proc pid jid) (d :: ds)
                       (create_tasks_for_job (mark_job_in_progress s jid) jid)).
  assert (Hi : StatusInv jid s3)
    by (apply inv_fold; left; exact (status_after_start s jid j Hj)).
  rewrite check_and_update_job_status_eq.
  destruct (check_all_demand_files_summarized s3 jid) eqn:Ec.
  - rewrite check_all_update.
    change (check_all_demand_files_summarized (log_call s3 (CallJobCompleted jid)) jid)
      with (check_all_demand_files_summarized s3 jid).
    rewrite Ec. destruct Hi as [H|[H _]]; eapply status_after_complete; exact H.
  - rewrite Ec. destruct Hi as [H|[_ Hc]]; [exact H|congruence].
Qed.

Lemma job_demand_files_frame_eq t t' jid :
  Frame t t' -> demand_files t' = demand_files t ->
  job_demand_files t' jid = job_demand_files t jid.
Proof.
  intros [_ [HJ _]] HD. rewrite <- (map_id (job_demand_files t jid)).
  apply (job_demand_files_map t t' (fun d => d)); [intros d; auto|now rewrite map_id|exact HJ].
Qed.

Lemma not_summarized_not_summarized df :
  is_not_summarized df = true -> is_summarized df = false.
Proof.
  unfold is_summarized, is_not_summarized. intros H.
  apply String.eqb_eq in H. rewrite H. reflexivity.
Qed.

Lemma check_and_update_dfs t jid :
  demand_files (check_and_update_job_status t jid) = demand_files t.
Proof.
  rewrite check_and_update_job_status_eq.
  destruct (check_all_demand_files_summarized t jid); reflexivity.
Qed.

Lemma fold_fail_dfs proc pid jid L t :
  (forall t x, exists m, proc t x = inr m) ->
  demand_files (fold_left (process_demand_file proc pid jid) L t) = demand_files t.
Proof.
  intros Hf. revert t. induction L as [|d L IH]; intros t; simpl; [reflexivity|].
  rewrite IH. unfold process_demand_file.
  destruct (get_task_by_demand_file_id t (df_id d)) as [task|]; [|reflexivity].
  destruct (Hf (mark_task_in_progress t (t_id task) pid) (df_id d)) as [m Hm].
  rewrite Hm. unfold mark_task_failed. rewrite check_and_update_dfs. reflexivity.
Qed.

Lemma get_task_some t x :
  In x (map t_demandFileId (tasks t)) -> exists task, get_task_by_demand_file_id t x = Some task.
Proof.
  intros Hin. unfold get_task_by_demand_file_id.
  destruct (find (fun t0 => String.eqb (t_demandFileId t0) x) (tasks t)) as [task|] eqn:E;
    [now exists task|exfalso].
  apply in_map_iff in Hin as [t0 [Hid Hin]].
  pose proof (find_none _ _ E t0 Hin) as H. simpl in H.
  rewrite Hid, String.eqb_refl in H. discriminate.
Qed.

Lemma done_mark_df t x o : Done (mark_demand_file_summarized t x o) x.
Proof.
  intros d Hin Hid. simpl in Hin. apply in_map_iff in Hin as [d0 [<- _]].
  rewrite set_df_summarized_id in Hid. unfold set_df_summarized.
  rewrite Hid, String.eqb_refl. reflexivity.
Qed.

Lemma fold_done proc pid jid L t :
  (forall t x, exists bp n, proc t x = inl (bp, n)) ->
  (forall d, In d L -> In (df_id d) (map t_demandFileId (tasks t))) ->
  forall d, In d L -> Done (fold_left (process_demand_file proc pid jid) L t) (df_id d).
Proof.
  intros Hok. revert t. induction L as [|d0 L IH]; intros t Ht d Hd; [destruct Hd|].
  simpl. set (t1 := process_demand_file proc pid jid t d0).
  assert (Ht1 : forall d, In d L -> In (df_id d) (map t_demandFileId (tasks t1))).
  { intros d' Hd'. destruct (frame_process proc pid jid t d0) as [_ [_ HT]].
    unfold t1. rewrite HT. apply Ht. now right. }
  destruct Hd as [<-|Hd]; [|exact (IH t1 Ht1 d Hd)].
  apply (done_frame t1); [apply frame_fold|].
  unfold t1, process_demand_file.
  destruct (get_task_some t (df_id d0) (Ht d0 (or_introl eq_refl))) as [task Etask].
  rewrite Etask.
  destruct (Hok (mark_task_in_progress t (t_id task) pid) (df_id d0)) as (bp & n & Hp).
  rewrite Hp. apply done_mark_df.
Qed.

(** [mark_task_failed] never sets a job to [failed] (its docstring says it
    checks whether the job should be marked as failed).  It sets the failed
    task's row to [failed]; the only change it can make to a job is to set
    every row of that job to [completed], which it does exactly when all of
    the job's demand files are summarized. *)
Theorem mark_task_failed_job_effect s tid jid r :
  let s' := mark_task_failed s tid jid r in
  tasks s' = map (set_task_failed tid (clock s)) (tasks s) /\
  demand_files s' = demand_files s /\
  map job_status (jobs s') =
  map (fun j => if check_all_demand_files_summarized s jid && String.eqb (job_id j) jid
                then "completed" else job_status j) (jobs s).
Proof.
  cbv zeta. unfold mark_task_failed. rewrite check_and_update_job_status_eq.
  change (check_all_demand_files_summarized
            (with_tasks s (map (set_task_failed tid (clock s)) (tasks s))) jid)
    with (check_all_demand_files_summarized s jid).
  destruct (check_all_demand_files_summarized s jid); simpl.
  - split; [reflexivity|split; [reflexivity|]].
    rewrite map_map. apply map_ext. intros j. unfold set_job_status.
    destruct (String.eqb (job_id j) jid); reflexivity.
  - split; [reflexivity|split; [reflexivity|]]. apply map_ext. reflexivity.
Qed.

(** While some demand file of the job is not summarized, the job-status
    check inside [mark_task_completed] cannot complete the job: the job rows
    and the demand files are left unchanged.  The task's row becomes
    [completed] with the output directory as [outputFilePath] and the
    current time as [endTs]. *)
Theorem mark_task_completed_keeps_job s tid out n jid df :
  In df (job_demand_files s jid) -> is_summarized df = false ->
  let s' := mark_task_completed s tid out n jid in
  jobs s' = jobs s /\ demand_files s' = demand_files s /\
  tasks s' = map (set_task_completed tid out (clock s)) (tasks s) /\
  (forall t, In t (tasks s') -> t_id t = tid ->
     t_status t = "completed" /\ t_outputFilePath t = Some out /\ t_endTs t = Some (clock s)).
Proof.
  intros Hin Hns. cbv zeta. unfold mark_task_completed. rewrite check_and_update_job_status_eq.
  change (check_all_demand_files_summarized
            (with_tasks s (map (set_task_completed tid out (clock s)) (tasks s))) jid)
    with (check_all_demand_files_summarized s jid).
  destruct (check_all_demand_files_summarized s jid) eqn:Ec.
  - exfalso. apply check_all_demand_files_summarized_iff in Ec as [_ Hall].
    rewrite Forall_forall in Hall. rewrite (Hall df Hin) in Hns. discriminate.
  - simpl. split; [reflexivity|split; [reflexivity|split; [reflexivity|]]].
    intros t Ht Hid. apply in_map_iff in Ht as [t0 [<- _]].
    unfold set_task_completed in *.
    destruct (String.eqb (t_id t0) tid) eqn:E; simpl; [auto|].
    simpl in Hid. apply String.eqb_neq in E. contradiction.
Qed.

(** Whatever the extraction does, a run of [main] on an existing job with
    at least one [not_summarized] demand file never leaves the job
    [failed]: it ends [completed] when every demand file of the job is
    summarized in the final store, and [in_progress] otherwise. *)
Theorem main_final_job_status proc pid s jid j prog rest :
  get_job_by_id s jid = Some j ->
  filter is_not_summarized (job_demand_files s jid) <> [] ->
  let s' := snd (main proc pid (prog :: jid :: rest) s) in
  job_status_by_id s' jid =
  Some (if check_all_demand_files_summarized s' jid then "completed" else "in_progress").
Proof. apply main_status_core. Qed.

(** When every extraction succeeds, a run of [main] on an existing job with
    at least one [not_summarized] demand file, whose demand files are all
    either [summarized] or [not_summarized], leaves every demand file of
    the job [summarized] and the job [completed]. *)
Theorem main_all_success_completes proc pid s jid j prog rest :
  get_job_by_id s jid = Some j ->
  filter is_not_summarized (job_demand_files s jid) <> [] ->
  (forall d, In d (job_demand_files s jid) -> is_summarized d = true \/ is_not_summarized d = true) ->
  (forall t x, exists bp n, proc t x = inl (bp, n)) ->
  let s' := snd (main proc pid (prog :: jid :: rest) s) in
  Forall (fun d => df_summaryStatus d = "summarized") (job_demand_files s' jid) /\
  job_status_by_id s' jid = Some "completed".
Proof.
  intros Hj Hne Hcov Hok. cbv zeta.
  pose proof (main_status_core proc pid s jid j prog rest Hj Hne) as Hst. cbv zeta in Hst.
  destruct (main_run_eq proc pid s jid j prog rest Hj Hne) as (d & ds & Eg & Es).
  set (s2 := create_tasks_for_job (mark_job_in_progress s jid) jid) in *.
  set (s' := snd (main proc pid (prog :: jid :: rest) s)) in *.
  set (s3 := fold_left (process_demand_file proc pid jid) (d :: ds) s2) in *.
  assert (HJ2 : job_demand_files s2 jid = job_demand_files s jid)
    by apply job_demand_files_after_start.
  assert (Hperm : Permutation (d :: ds) (filter is_not_summarized (job_demand_files s jid))).
  { rewrite <- Eg, <- HJ2. unfold get_demand_files_for_job.
    apply sort_by_created_correct. }
  assert (Htasks : forall x, In x (d :: ds) -> In (df_id x) (map t_demandFileId (tasks s2))).
  { intros x Hx. destruct (create_tasks_for_job_props (mark_job_in_progress s jid) jid)
      as (_ & _ & _ & HT & _).
    unfold s2. rewrite HT. apply in_or_app. right. apply in_map.
    rewrite (proj2 (proj2 (proj2 (proj2 (mark_job_in_progress_props s jid))))).
    exact (Permutation_in _ Hperm Hx). }
  assert (HF : Frame s2 s').
  { rewrite Es. eapply frame_trans; [apply frame_fold|apply frame_check]. }
  assert (Hdone : forall x, In x (d :: ds) -> Done s' (df_id x)).
  { intros x Hx. rewrite Es. apply (done_frame s3); [apply frame_check|].
    apply fold_done; assumption. }
  destruct HF as [[F [HFp HD]] [HK HT]] eqn:HFr.
  assert (HJ' : job_demand_files s' jid = map F (job_demand_files s jid))
    by (rewrite <- HJ2; exact (job_demand_files_map s2 s' F jid HFp HD HK)).
  assert (Hall : Forall (fun d => is_summarized d = true) (job_demand_files s' jid)).
  { rewrite HJ'. apply Forall_map, Forall_forall. intros x Hx.
    destruct (Hcov x Hx) as [Hs|Hn]; [exact (proj2 (proj2 (HFp x)) Hs)|].
    assert (HxL : In x (d :: ds))
      by (apply (Permutation_in _ (Permutation_sym Hperm)); apply filter_In; auto).
    apply (Hdone x HxL).
    - rewrite HD. apply in_map. rewrite <- HJ2 in Hx. exact (job_demand_files_in s2 jid x Hx).
    - exact (proj1 (HFp x)). }
  assert (Hc : check_all_demand_files_summarized s' jid = true).
  { apply check_all_demand_files_summarized_iff. split; [|exact Hall].
    rewrite HJ'. destruct (job_demand_files s jid); [contradiction|discriminate]. }
  split; [|rewrite Hc in Hst; exact Hst].
  eapply Forall_impl; [|exact Hall]. intros x Hx. now apply String.eqb_eq.
Qed.

(** When every extraction fails, a run of [main] on an existing job with at
    least one [not_summarized] demand file changes no demand-file row and
    leaves the job [in_progress] (not [failed]). *)
Theorem main_all_fail_in_progress proc pid s jid j prog rest :
  get_job_by_id s jid = Some j ->
  filter is_not_summarized (job_demand_files s jid) <> [] ->
  (forall t x, exists m, proc t x = inr m) ->
  let s' := snd (main proc pid (prog :: jid :: rest) s) in
  demand_files s' = demand_files s /\ job_status_by_id s' jid = Some "in_progress".
Proof.
  intros Hj Hne Hf. cbv zeta.
  pose proof (main_status_core proc pid s jid j prog rest Hj Hne) as Hst. cbv zeta in Hst.
  destruct (main_run_eq proc pid s jid j prog rest Hj Hne) as (d & ds & _ & Es).
  set (s2 := create_tasks_for_job (mark_job_in_progress s jid) jid) in *.
  set (s' := snd (main proc pid (prog :: jid :: rest) s)) in *.
  assert (HD2 : demand_files s2 = demand_files s).
  { destruct (create_tasks_for_job_props (mark_job_in_progress s jid) jid) as (_ & HD & _).
    unfold s2. rewrite HD. apply (proj1 (proj2 (mark_job_in_progress_props s jid))). }
  assert (HD : demand_files s' = demand_files s2)
    by (rewrite Es, check_and_update_dfs; apply fold_fail_dfs; exact Hf).
  split; [congruence|].
  assert (HF : Frame s2 s')
    by (rewrite Es; eapply frame_trans; [apply frame_fold|apply frame_check]).
  assert (HJ : job_demand_files s' jid = job_demand_files s jid)
    by (rewrite (job_demand_files_frame_eq s2 s' jid HF HD); apply job_demand_files_after_start).
  destruct (check_all_demand_files_summarized s' jid) eqn:Ec; [|exact Hst].
  exfalso. apply check_all_demand_files_summarized_iff in Ec as [_ Hall].
  rewrite HJ in Hall.
  destruct (filter is_not_summarized (job_demand_files s jid)) as [|x xs] eqn:Efl;
    [contradiction|].
  assert (Hx : In x (filter is_not_summarized (job_demand_files s jid))) by (rewrite Efl; now left).
  apply filter_In in Hx as [Hx Hn]. rewrite Forall_forall in Hall.
  specialize (Hall x Hx). rewrite (not_summarized_not_summarized x Hn) in Hall. discriminate.
Qed.

(** A store for the witnesses: job [j1], pending, with one file to summarize. *)
Definition run_store : DB := store [job_j1 "pending"] [file_f1 "not_summarized"] [].

Definition ok_extraction (s : DB) (dfid : string) : (string * nat) + string :=
  inl ("/outputs/j1/a", 2).

Lemma mark_task_completed_keeps_job_witness :
  In (file_f1 "not_summarized")
     (job_demand_files (store [job_j1 "in_progress"] [file_f1 "not_summarized"]
                              [task_t1 "in_progress"]) "j1") /\
  is_summarized (file_f1 "not_summarized") = false /\
  jobs (mark_task_completed (store [job_j1 "in_progress"] [file_f1 "not_summarized"]
                                   [task_t1 "in_progress"]) "t1" "/out" 2 "j1") =
  [job_j1 "in_progress"].
Proof.
  assert (H1 : In (file_f1 "not_summarized")
     (job_demand_files (store [job_j1 "in_progress"] [file_f1 "not_summarized"]
                              [task_t1 "in_progress"]) "j1")) by (simpl; auto).
  assert (H2 : is_summarized (file_f1 "not_summarized") = false) by reflexivity.
  split; [exact H1|split; [exact H2|]].
  exact (proj1 (mark_task_completed_keeps_job _ "t1" "/out" 2 "j1" _ H1 H2)).
Defined.

Lemma main_final_job_status_witness :
  get_job_by_id run_store "j1" = Some (job_j1 "pending") /\
  filter is_not_summarized (job_demand_files run_store "j1") <> [] /\
  job_status_by_id (snd (main failing_extraction 7 ["main.py"; "j1"] run_store)) "j1" =
  Some (if check_all_demand_files_summarized
             (snd (main failing_extraction 7 ["main.py"; "j1"] run_store)) "j1"
        then "completed" else "in_progress").
Proof.
  assert (H1 : get_job_by_id run_store "j1" = Some (job_j1 "pending")) by reflexivity.
  assert (H2 : filter is_not_summarized (job_demand_files run_store "j1") <> [])
    by (vm_compute; discriminate).
  split; [exact H1|split; [exact H2|]].
  exact (main_final_job_status failing_extraction 7 run_store "j1" _ "main.py" [] H1 H2).
Defined.

Lemma main_all_success_completes_witness :
  get_job_by_id run_store "j1" = Some (job_j1 "pending") /\
  filter is_not_summarized (job_demand_files run_store "j1") <> [] /\
  (forall d, In d (job_demand_files run_store "j1") ->
     is_summarized d = true \/ is_not_summarized d = true) /\
  (forall t x, exists bp n, ok_extraction t x = inl (bp, n)) /\
  job_status_by_id (snd (main ok_extraction 7 ["main.py"; "j1"] run_store)) "j1" =
  Some "completed".
Proof.
  assert (H1 : get_job_by_id run_store "j1" = Some (job_j1 "pending")) by reflexivity.
  assert (H2 : filter is_not_summarized (job_demand_files run_store "j1") <> [])
    by (vm_compute; discriminate).
  assert (H3 : forall d, In d (job_demand_files run_store "j1") ->
     is_summarized d = true \/ is_not_summarized d = true).
  { intros d Hd. simpl in Hd. destruct Hd as [<-|[]]. right. reflexivity. }
  assert (H4 : forall t x, exists bp n, ok_extraction t x = inl (bp, n))
    by (intros t x; exists "/outputs/j1/a", 2; reflexivity).
  split; [exact H1|split; [exact H2|split; [exact H3|split; [exact H4|]]]].
  exact (proj2 (main_all_success_completes ok_extraction 7 run_store "j1" _ "main.py" []
                  H1 H2 H3 H4)).
Defined.

Lemma main_all_fail_in_progress_witness :
  get_job_by_id run_store "j1" = Some (job_j1 "pending") /\
  filter is_not_summarized (job_demand_files run_store "j1") <> [] /\
  (forall t x, exists m, failing_extraction t x = inr m) /\
  job_status_by_id (snd (main failing_extraction 7 ["main.py"; "j1"] run_store)) "j1" =
  Some "in_progress".
Proof.
  assert (H1 : get_job_by_id run_store "j1" = Some (job_j1 "pending")) by reflexivity.
  assert (H2 : filter is_not_summarized (job_demand_files run_store "j1") <> [])
    by (vm_compute; discriminate).
  assert (H3 : forall t x, exists m, failing_extraction t x = inr m)
    by (intros t x; eexists; reflexivity).
  split; [exact H1|split; [exact H2|split; [exact H3|]]].
  exact (proj2 (main_all_fail_in_progress failing_extraction 7 run_store "j1" _ "main.py" []
                  H1 H2 H3)).
Defined.

End RunFacts.

(* ================================================================= *)
(** * Task creation, output paths and the path lookup *)

Module PathFacts.
Import Db PyStr OutputPath Resolver JobDir.

(** The columns [create_tasks_for_job] writes for one selected demand file. *)
Definition pending_task_for (jid : string) (now : nat) (t : Task) (df : DemandFile) : Prop :=
  t_jobId t = jid /\ t_demandFileId t = df_id df /\ t_fileName t = df_fileName df /\
  t_filePath t = df_filePath df /\ t_outputSummary t = DUMMY_TASK_SUMMARY /\
  t_status t = "pending" /\ t_outputFilePath t = None /\
  t_createdAt t = now /\ t_updatedAt t = now.

Lemma fold_insert_tasks_new jid rows s :
  let s' := fold_left (fun acc df => insert_task acc (new_task acc jid df)) rows s in
  clock s' = clock s /\
  exists new, tasks s' = (tasks s ++ new)%list /\ Forall2 (pending_task_for jid (clock s)) new rows.
Proof.
  revert s. induction rows as [|df rows IH]; intros s; simpl.
  - split; [reflexivity|]. exists []. split; [now rewrite app_nil_r|constructor].
  - destruct (IH (insert_task s (new_task s jid df))) as [Hc [new [Ht Hf]]].
    simpl in Hc, Ht, Hf. split; [exact Hc|].
    exists (new_task s jid df :: new). split.
    + rewrite Ht, <- app_assoc. reflexivity.
    + constructor; [|exact Hf]. unfold pending_task_for; simpl; repeat split.
Qed.

Lemma filter_all_false {A} (f : A -> bool) l :
  (forall x, In x l -> f x = false) -> filter f l = [].
Proof.
  induction l as [|x l IH]; simpl; intros H; [reflexivity|].
  rewrite (H x (or_introl eq_refl)). apply IH. auto.
Qed.

Lemma filter_head_id dfid (d : DemandFile) rest l :
  filter (fun df => String.eqb (df_id df) dfid) l = d :: rest -> df_id d = dfid.
Proof.
  intros H. assert (Hin : In d (filter (fun df => String.eqb (df_id df) dfid) l))
    by (rewrite H; now left).
  apply filter_In in Hin as [_ E]. now apply String.eqb_eq.
Qed.

Lemma in_sanitize c name :
  In c (list_ascii_of_string (sanitize_chars name)) -> ~ In c invalid_chars.
Proof.
  unfold sanitize_chars. rewrite list_ascii_of_string_of_list_ascii.
  intros Hin. apply in_map_iff in Hin as [x [<- _]].
  destruct (existsb (Ascii.eqb x) invalid_chars) eqn:E.
  - simpl. intros H. repeat (destruct H as [H|H]; [discriminate H|]). exact H.
  - intros H. assert (Hx : existsb (Ascii.eqb x) invalid_chars = true)
      by (apply existsb_exists; exists x; split; [exact H|apply Ascii.eqb_refl]).
    congruence.
Qed.

Lemma drop_through_dot_in c r : In c (drop_through_dot r) -> In c r.
Proof.
  induction r as [|x r IH]; simpl; [auto|].
  destruct (Ascii.eqb x "."%char); auto.
Qed.

Lemma in_strip_extension c s :
  In c (list_ascii_of_string (strip_extension s)) -> In c (list_ascii_of_string s).
Proof.
  unfold strip_extension. destruct (existsb _ _); [|auto].
  rewrite list_ascii_of_string_of_list_ascii. intros H.
  apply in_rev, drop_through_dot_in, in_rev in H. exact H.
Qed.

Definition no_slash (s : string) : bool :=
  negb (existsb (Ascii.eqb slash) (list_ascii_of_string s)).

Lemma pf_app_nil_r (a : string) : a ++ "" = a.
Proof. induction a as [|x a IH]; simpl; [reflexivity|now rewrite IH]. Qed.

Lemma split_slash_app cur a r :
  no_slash a = true ->
  PosixPath.split_slash_aux cur (a ++ String slash r) =
  (cur ++ a) :: PosixPath.split_slash_aux "" r.
Proof.
  revert cur. induction a as [|x a IH]; intros cur H.
  - cbn [append PosixPath.split_slash_aux]. rewrite pf_app_nil_r. reflexivity.
  - unfold no_slash in H. cbn [list_ascii_of_string existsb] in H.
    apply negb_true_iff, orb_false_iff in H as [Hx Ha].
    cbn [append PosixPath.split_slash_aux]. rewrite Ascii.eqb_sym, Hx. rewrite IH by (unfold no_slash; now rewrite Ha).
    rewrite <- ResolverFacts.str_app_assoc. reflexivity.
Qed.

Lemma split_slash_none cur a :
  no_slash a = true -> PosixPath.split_slash_aux cur a = [cur ++ a].
Proof.
  revert cur. induction a as [|x a IH]; intros cur H.
  - cbn [PosixPath.split_slash_aux]. now rewrite pf_app_nil_r.
  - unfold no_slash in H. cbn [list_ascii_of_string existsb] in H.
    apply negb_true_iff, orb_false_iff in H as [Hx Ha].
    cbn [append PosixPath.split_slash_aux]. rewrite Ascii.eqb_sym, Hx. rewrite IH by (unfold no_slash; now rewrite Ha).
    rewrite <- ResolverFacts.str_app_assoc. reflexivity.
Qed.

Lemma keep_segment j :
  j <> "" -> j <> "." -> negb (String.eqb j "" || String.eqb j ".") = true.
Proof.
  intros H1 H2. apply String.eqb_neq in H1. apply String.eqb_neq in H2.
  now rewrite H1, H2.
Qed.

Lemma parse_constructed j stem :
  no_slash j = true -> j <> "" -> j <> "." ->
  (stem = "" \/ stem = "." \/ stem = "..") ->
  PosixPath.parse ("outputs/" ++ j ++ "/" ++ stem) =
  PosixPath.mkPPath false
    (["outputs"; j] ++ (if String.eqb stem ".." then [".."] else []))%list.
Proof.
  intros Hs H1 H2 Hst. unfold PosixPath.parse.
  change ("outputs/" ++ j ++ "/" ++ stem) with
    (String "o" (String "u" (String "t" (String "p" (String "u" (String "t" (String "s"
      (String slash (j ++ String slash stem))))))))).
  cbn [startswith_slash]. f_equal.
  cbn [PosixPath.split_slash_aux Ascii.eqb slash append Bool.eqb].
  rewrite (split_slash_app "" j stem Hs). cbn [append].
  cbn [filter]. rewrite (keep_segment j H1 H2).
  destruct Hst as [ Hst | [ Hst | Hst ] ]; subst stem; reflexivity.
Qed.

Lemma parse_segment j :
  no_slash j = true -> j <> "" -> j <> "." -> PosixPath.parse j = PosixPath.mkPPath false [j].
Proof.
  intros Hs H1 H2. unfold PosixPath.parse. rewrite (split_slash_none "" j Hs).
  cbn [append filter]. rewrite (keep_segment j H1 H2). f_equal.
  destruct j as [|c j]; [contradiction|]. unfold no_slash in Hs.
  cbn [list_ascii_of_string existsb] in Hs.
  apply negb_true_iff, orb_false_iff in Hs as [Hc _]. cbn [startswith_slash].
  rewrite Ascii.eqb_sym. exact Hc.
Qed.

Section Paths.
Variable cwd : PosixPath.PPath.
Variable getenv : string -> option string.
Variable os_name : string.

Definition out_base : PosixPath.PPath :=
  match outputs_base getenv with
  | Some base => PosixPath.parse base
  | None => cwd
  end.

Abbreviation posix_base_path :=
  (get_output_base_path PosixPath.PPath PosixPath.parse PosixPath.join
     (PosixPath.resolve cwd) PosixPath.p_abs cwd getenv os_name).

Lemma constructed_eq s dfid job file :
  output_path_query s dfid = Some (Some job, Some file, None) ->
  job <> "" -> file <> "" ->
  posix_base_path s dfid =
  inl (PosixPath.resolve cwd
         (PosixPath.join out_base ("outputs/" ++ job ++ "/" ++
                                   strip_extension (sanitize_chars file)))).
Proof.
  intros Hq Hj Hf. unfold get_output_base_path. rewrite Hq.
  rewrite (OutputPathFacts.truthy_nonempty _ Hj), (OutputPathFacts.truthy_nonempty _ Hf).
  unfold out_base. destruct (outputs_base getenv); reflexivity.
Qed.

Lemma resolve_join_parts b l :
  PosixPath.resolve cwd (PosixPath.mkPPath (PosixPath.p_abs b) (PosixPath.p_parts b ++ l)) =
  PosixPath.mkPPath true
    (List.rev (fold_left (fun acc x => if String.eqb x ".." then tl acc else x :: acc) l
       (fold_left (fun acc x => if String.eqb x ".." then tl acc else x :: acc)
          (if PosixPath.p_abs b then PosixPath.p_parts b
           else (PosixPath.p_parts cwd ++ PosixPath.p_parts b)%list) []))).
Proof.
  destruct b as [[|] pb]; unfold PosixPath.resolve, PosixPath.fold_dotdot; simpl;
    [now rewrite fold_left_app|now rewrite app_assoc, fold_left_app].
Qed.

(** A file name whose sanitized stem is [..] (for example [...pdf]) makes
    [get_output_base_path], when no [outputFilePath] is recorded, return the
    shared [outputs] directory itself, one level above the job's directory
    [outputs/<job-id>] ([Path.resolve] collapses the [..]). *)
Theorem get_output_base_path_dotdot_stem s dfid job file :
  output_path_query s dfid = Some (Some job, Some file, None) ->
  file <> "" -> no_slash job = true -> job <> "" -> job <> "." -> job <> ".." ->
  strip_extension (sanitize_chars file) = ".." ->
  posix_base_path s dfid = inl (PosixPath.resolve cwd (PosixPath.join out_base "outputs")).
Proof.
  intros Hq Hf Hs H1 H2 H3 Hst. rewrite (constructed_eq s dfid job file Hq H1 Hf), Hst.
  f_equal. unfold PosixPath.join at 1.
  rewrite (parse_constructed job ".." Hs H1 H2 (or_intror (or_intror eq_refl))).
  cbn [PosixPath.p_abs PosixPath.p_parts String.eqb Ascii.eqb Bool.eqb].
  assert (Ho : PosixPath.parse "outputs" = PosixPath.mkPPath false ["outputs"])
    by reflexivity.
  unfold PosixPath.join. rewrite Ho.
  cbn [PosixPath.p_abs PosixPath.p_parts].
  rewrite !resolve_join_parts. cbn [fold_left].
  apply String.eqb_neq in H3. simpl. rewrite H3. reflexivity.
Qed.

(** A file name whose sanitized stem is empty or [.] (for example [.pdf])
    makes [get_output_base_path], when no [outputFilePath] is recorded,
    return the job's own directory [outputs/<job-id>]: the same directory
    [get_job_output_directory] returns for that job. *)
Theorem get_output_base_path_job_dir_stem s dfid job file :
  output_path_query s dfid = Some (Some job, Some file, None) ->
  file <> "" -> no_slash job = true -> job <> "" -> job <> "." ->
  (strip_extension (sanitize_chars file) = "" \/ strip_extension (sanitize_chars file) = ".") ->
  posix_base_path s dfid =
    inl (PosixPath.resolve cwd (PosixPath.join (PosixPath.join out_base "outputs") job)) /\
  (forall eq_dec lineage fs d fs1,
     get_job_output_directory PosixPath.PPath eq_dec PosixPath.parse PosixPath.join lineage
       (PosixPath.resolve cwd) cwd getenv job fs = Some (d, fs1) ->
     posix_base_path s dfid = inl d).
Proof.
  intros Hq Hf Hs H1 H2 Hst.
  assert (E : posix_base_path s dfid =
    inl (PosixPath.resolve cwd (PosixPath.join (PosixPath.join out_base "outputs") job))).
  { rewrite (constructed_eq s dfid job file Hq H1 Hf). f_equal. f_equal.
    assert (Hp : PosixPath.parse ("outputs/" ++ job ++ "/" ++
                                  strip_extension (sanitize_chars file)) =
                 PosixPath.mkPPath false ["outputs"; job]).
    { rewrite (parse_constructed job _ Hs H1 H2)
        by (destruct Hst as [-> | ->]; auto).
      destruct Hst as [-> | ->]; reflexivity. }
    assert (Ho : PosixPath.parse "outputs" = PosixPath.mkPPath false ["outputs"])
      by reflexivity.
    unfold PosixPath.join. rewrite Hp, Ho, (parse_segment job Hs H1 H2).
    cbn [PosixPath.p_abs PosixPath.p_parts]. now rewrite <- app_assoc. }
  split; [exact E|].
  intros eq_dec lineage fs d fs1 Hg. rewrite E. unfold get_job_output_directory in Hg.
  destruct (Writer.mkdir_p _ _ _ _ fs); [|discriminate]. injection Hg as <- _.
  unfold out_base. destruct (outputs_base getenv); reflexivity.
Qed.

End Paths.

Section Generic.
Variable Path : Type.
Variable Path_of : string -> Path.
Variable join : Path -> string -> Path.
Variable resolve_p : Path -> Path.
Variable is_absolute : Path -> bool.
Variable cwd : Path.
Variable getenv : string -> option string.
Variable os_name : string.

(** [get_output_base_path] on a demand file that has no task yet raises
    [ValueError] with "Job ID not found for DemandFile <id>": the job id
    comes from the LEFT JOINed task row, which is NULL, whatever the file's
    own columns hold. *)
Theorem get_output_base_path_no_task s dfid d rest :
  filter (fun df => String.eqb (df_id df) dfid) (demand_files s) = d :: rest ->
  (forall t, In t (tasks s) -> t_demandFileId t <> dfid) ->
  get_output_base_path Path Path_of join resolve_p is_absolute cwd getenv os_name s dfid =
  inr ("Job ID not found for DemandFile " ++ dfid).
Proof.
  intros Hd Ht. pose proof (filter_head_id dfid d rest _ Hd) as Hid.
  unfold get_output_base_path, output_path_query. rewrite Hd. cbn [flat_map].
  unfold output_row. rewrite filter_all_false.
  - reflexivity.
  - intros t Hin. apply String.eqb_neq. rewrite Hid. exact (Ht t Hin).
Qed.

End Generic.

(** The directory name [get_output_base_path] derives from a file name
    contains none of the characters < > : double-quote / backslash | ? *.  *)
Theorem output_dir_name_valid name c :
  In c (list_ascii_of_string (strip_extension (sanitize_chars name))) -> ~ In c invalid_chars.
Proof. intros H. apply (in_sanitize c name). now apply in_strip_extension. Qed.

Section Fetch.
Variable Path : Type.
Variable Path_of : string -> Path.
Variable path_str : Path -> string.
Variable join : Path -> string -> Path.
Variable parent : Path -> Path.
Variable cwd : Path.
Variable exists_p : Path -> bool.
Variable read_bytes : Path -> option (list Byte.byte).
Variable getenv : string -> option string.


(** Which path [fetch_pdf_from_database] resolves ([COALESCE(df.filePath,
    t.filePath)]) for a demand file whose id is unique: a non-NULL
    [DemandFile.filePath] wins over any task path, and an empty one raises
    [ValueError] even when a task holds a path; a NULL one falls back to the
    path of the file's task when it has exactly one, and with no task the
    call raises [ValueError]. *)
Theorem fetch_pdf_from_database_path_choice s dfid d :
  filter (fun df => String.eqb (df_id df) dfid) (demand_files s) = [d] ->
  (forall p, df_filePath d = Some p ->
     fetch_pdf_from_database Path Path_of path_str join parent cwd exists_p read_bytes
       getenv s dfid =
     if String.eqb p "" then inr (ValueError ("File path not found for DemandFile " ++ dfid))
     else fetch_pdf_from_path Path Path_of path_str join parent cwd exists_p read_bytes
            getenv p) /\
  (forall t p, df_filePath d = None ->
     filter (fun t => String.eqb (t_demandFileId t) dfid) (tasks s) = [t] ->
     t_filePath t = Some p -> p <> "" ->
     fetch_pdf_from_database Path Path_of path_str join parent cwd exists_p read_bytes
       getenv s dfid =
     fetch_pdf_from_path Path Path_of path_str join parent cwd exists_p read_bytes getenv p) /\
  (df_filePath d = None -> (forall t, In t (tasks s) -> t_demandFileId t <> dfid) ->
     fetch_pdf_from_database Path Path_of path_str join parent cwd exists_p read_bytes
       getenv s dfid = inr (ValueError ("File path not found for DemandFile " ++ dfid))).
Proof.
  intros Hd. pose proof (filter_head_id dfid d [] _ Hd) as Hid.
  unfold fetch_pdf_from_database, fetch_file_path_query. rewrite Hd. cbn [flat_map].
  split; [|split].
  - intros p Hp. destruct (LedgerFacts.left_join_rows_head s d p Hp) as [r Er].
    rewrite Er. reflexivity.
  - intros t p Hn Ht Hp Hne. unfold left_join_rows. rewrite Hid, Ht, Hn.
    cbn [map hd_error List.app coalesce]. rewrite Hp.
    apply String.eqb_neq in Hne. rewrite Hne. reflexivity.
  - intros Hn Ht. unfold left_join_rows. rewrite filter_all_false, Hn; [reflexivity|].
    intros t Hin. apply String.eqb_neq. rewrite Hid. exact (Ht t Hin).
Qed.

End Fetch.

(** Witnesses. *)
Definition named_store (name : string) : DB :=
  mkDB [mkJob "j1" "in_progress" "n1" 0]
       [mkDemandFile "f1" "n1" name (Some "/uploads/a.pdf") "not_summarized" 0]
       [mkTask "t1" "j1" "f1" name (Some "/uploads/a.pdf") DUMMY_TASK_SUMMARY "pending"
               None None None None None 0 0] 1 0 [].

Definition untasked_store : DB :=
  mkDB [mkJob "j1" "in_progress" "n1" 0]
       [mkDemandFile "f1" "n1" "a.pdf" None "not_summarized" 0]
       [] 1 0 [].

Lemma get_output_base_path_dotdot_stem_witness :
  output_path_query (named_store "...pdf") "f1" = Some (Some "j1", Some "...pdf", None) /\
  strip_extension (sanitize_chars "...pdf") = ".." /\
  get_output_base_path PosixPath.PPath PosixPath.parse PosixPath.join
    (PosixPath.resolve OutputPathFacts.app_cwd) PosixPath.p_abs OutputPathFacts.app_cwd
    (fun _ => None) "posix" (named_store "...pdf") "f1" =
  inl (PosixPath.mkPPath true ["app"; "outputs"]).
Proof.
  assert (Hq : output_path_query (named_store "...pdf") "f1" =
               Some (Some "j1", Some "...pdf", None)) by reflexivity.
  assert (Hst : strip_extension (sanitize_chars "...pdf") = "..") by reflexivity.
  split; [exact Hq|split; [exact Hst|]].
  rewrite (get_output_base_path_dotdot_stem OutputPathFacts.app_cwd (fun _ => None) "posix"
             (named_store "...pdf") "f1" "j1" "...pdf" Hq ltac:(discriminate)
             eq_refl ltac:(discriminate) ltac:(discriminate) ltac:(discriminate) Hst).
  reflexivity.
Defined.

Lemma get_output_base_path_job_dir_stem_witness :
  output_path_query (named_store ".pdf") "f1" = Some (Some "j1", Some ".pdf", None) /\
  strip_extension (sanitize_chars ".pdf") = "" /\
  get_output_base_path PosixPath.PPath PosixPath.parse PosixPath.join
    (PosixPath.resolve OutputPathFacts.app_cwd) PosixPath.p_abs OutputPathFacts.app_cwd
    (fun _ => None) "posix" (named_store ".pdf") "f1" =
  inl (PosixPath.mkPPath true ["app"; "outputs"; "j1"]).
Proof.
  assert (Hq : output_path_query (named_store ".pdf") "f1" =
               Some (Some "j1", Some ".pdf", None)) by reflexivity.
  assert (Hst : strip_extension (sanitize_chars ".pdf") = "") by reflexivity.
  split; [exact Hq|split; [exact Hst|]].
  rewrite (proj1 (get_output_base_path_job_dir_stem OutputPathFacts.app_cwd (fun _ => None)
             "posix" (named_store ".pdf") "f1" "j1" ".pdf" Hq ltac:(discriminate)
             eq_refl ltac:(discriminate) ltac:(discriminate) (or_introl Hst))).
  reflexivity.
Defined.

Lemma get_output_base_path_no_task_witness :
  filter (fun df => String.eqb (df_id df) "f1") (demand_files untasked_store) =
    [mkDemandFile "f1" "n1" "a.pdf" None "not_summarized" 0] /\
  OutputPathFacts.posix_output_path untasked_store "f1" =
    inr ("Job ID not found for DemandFile " ++ "f1").
Proof.
  assert (Hd : filter (fun df => String.eqb (df_id df) "f1") (demand_files untasked_store) =
               [mkDemandFile "f1" "n1" "a.pdf" None "not_summarized" 0]) by reflexivity.
  split; [exact Hd|].
  exact (get_output_base_path_no_task PosixPath.PPath PosixPath.parse PosixPath.join
           (PosixPath.resolve OutputPathFacts.app_cwd) PosixPath.p_abs OutputPathFacts.app_cwd
           (fun _ => None) "posix" untasked_store "f1" _ [] Hd
           (fun t Hin => match Hin with end)).
Defined.

Lemma fetch_pdf_from_database_path_choice_witness :
  filter (fun df => String.eqb (df_id df) "f1") (demand_files untasked_store) =
    [mkDemandFile "f1" "n1" "a.pdf" None "not_summarized" 0] /\
  fetch_pdf_from_database string (fun p => p) (fun p => p) (fun d a => d ++ "/" ++ a)
    (fun p => p) "/app" (fun _ => true) (fun _ => Some []) (fun _ => None)
    untasked_store "f1" =
  inr (ValueError ("File path not found for DemandFile " ++ "f1")).
Proof.
  assert (Hd : filter (fun df => String.eqb (df_id df) "f1") (demand_files untasked_store) =
               [mkDemandFile "f1" "n1" "a.pdf" None "not_summarized" 0]) by reflexivity.
  split; [exact Hd|].
  exact (proj2 (proj2 (fetch_pdf_from_database_path_choice string (fun p => p) (fun p => p)
           (fun d a => d ++ "/" ++ a) (fun p => p) "/app" (fun _ => true) (fun _ => Some [])
           (fun _ => None) untasked_store "f1" _ Hd)) eq_refl
           (fun t Hin => match Hin with end)).
Defined.

Lemma output_dir_name_valid_witness :
  strip_extension (sanitize_chars "a/b.pdf") = "a_b" /\
  In "_"%char (list_ascii_of_string (strip_extension (sanitize_chars "a/b.pdf"))) /\
  ~ In "_"%char invalid_chars.
Proof.
  assert (H : In "_"%char (list_ascii_of_string (strip_extension (sanitize_chars "a/b.pdf"))))
    by (vm_compute; right; left; reflexivity).
  split; [reflexivity|split; [exact H|exact (output_dir_name_valid "a/b.pdf" "_"%char H)]].
Defined.

(** [create_tasks_for_job] appends, after the existing tasks (which it
    leaves as they are), one task per [not_summarized] demand file of the
    job, in the order the rows are selected: each is [pending], belongs to
    the job, copies the file's id, [fileName] and [filePath], holds the
    dummy summary, has no [outputFilePath] and is stamped with the same
    [NOW()].  Jobs and demand files are not changed. *)
Theorem create_tasks_for_job_appends s jid :
  let s' := create_tasks_for_job s jid in
  jobs s' = jobs s /\ demand_files s' = demand_files s /\
  exists new, tasks s' = (tasks s ++ new)%list /\
    Forall2 (pending_task_for jid (clock s)) new
            (filter is_not_summarized (job_demand_files s jid)).
Proof.
  cbv zeta. destruct (LedgerFacts.create_tasks_for_job_props s jid) as (HJ & HD & _).
  split; [exact HJ|split; [exact HD|]].
  unfold create_tasks_for_job. cbn [tasks].
  exact (proj2 (fold_insert_tasks_new jid _ s)).
Qed.

End PathFacts.

(* ================================================================= *)
(** * Directory creation and the page writer: failures and frame *)

Module WriterMore.
Import Db OutputPath Writer JobDir.

Section Dirs.
Variable Path : Type.
Variable Path_eq_dec : forall p q : Path, {p = q} + {p <> q}.

Abbreviation mkdirs := (mkdirs Path Path_eq_dec).

Lemma mkdirs_file_blocks ps fs p b :
  In p ps -> fs p = Some (FileE b) -> mkdirs ps fs = None.
Proof.
  revert fs. induction ps as [|q ps IH]; intros fs Hin Hp; [destruct Hin|].
  simpl. destruct (Path_eq_dec q p) as [->|ne]; [now rewrite Hp|].
  destruct Hin as [->|Hin]; [contradiction|].
  destruct (fs q) as [[c|]|]; [reflexivity|now apply IH|].
  apply IH; [exact Hin|]. unfold Writer.upd.
  destruct (Path_eq_dec p q) as [->|_]; [contradiction|exact Hp].
Qed.

Lemma mkdirs_none_file ps fs :
  mkdirs ps fs = None -> exists p b, In p ps /\ fs p = Some (FileE b).
Proof.
  revert fs. induction ps as [|q ps IH]; intros fs H; [discriminate|].
  simpl in H. destruct (fs q) as [[c|]|] eqn:Eq.
  - exists q, c. split; [now left|exact Eq].
  - destruct (IH fs H) as (p & b & Hin & Hp). exists p, b. split; [now right|exact Hp].
  - destruct (IH _ H) as (p & b & Hin & Hp). exists p, b. split; [now right|].
    unfold Writer.upd in Hp. destruct (Path_eq_dec p q); [discriminate|exact Hp].
Qed.

Lemma mkdirs_fresh ps fs fs1 :
  mkdirs ps fs = Some fs1 -> forall p, fs p = None -> ~ In p ps -> fs1 p = None.
Proof.
  revert fs. induction ps as [|q ps IH]; intros fs H p Hp Hn; simpl in H.
  - now injection H as <-.
  - destruct (fs q) as [[c|]|]; [discriminate| |].
    + apply (IH fs H p Hp). intros Hin. apply Hn. now right.
    + apply (IH _ H p); [|intros Hin; apply Hn; now right].
      unfold Writer.upd. destruct (Path_eq_dec p q) as [->|_]; [|exact Hp].
      exfalso. apply Hn. now left.
Qed.

End Dirs.

Section JobDirectory.
Variable Path : Type.
Variable Path_eq_dec : forall p q : Path, {p = q} + {p <> q}.
Variable Path_of : string -> Path.
Variable join : Path -> string -> Path.
Variable lineage : Path -> list Path.
Variable resolve_p : Path -> Path.
Variable cwd : Path.
Variable getenv : string -> option string.

(** [get_job_output_directory] returns [(B / "outputs" / job_id).resolve()]
    (B the environment's base directory or the working directory).  It
    fails exactly when a regular file sits at that directory or at one of
    its ancestors; otherwise afterwards every directory of the lineage
    exists, every entry that existed is unchanged, and nothing outside the
    lineage is created. *)
Theorem get_job_output_directory_spec job_id fs :
  let job_dir := resolve_p (join (join (match outputs_base getenv with
                                        | Some base => Path_of base
                                        | None => cwd
                                        end) "outputs") job_id) in
  match get_job_output_directory Path Path_eq_dec Path_of join lineage resolve_p cwd getenv
          job_id fs with
  | None => exists p b, In p (lineage job_dir) /\ fs p = Some (FileE b)
  | Some (d, fs1) =>
      d = job_dir /\
      (forall p, In p (lineage job_dir) -> fs1 p = Some DirE) /\
      (forall p, fs p <> None -> fs1 p = fs p) /\
      (forall p, fs p = None -> ~ In p (lineage job_dir) -> fs1 p = None)
  end.
Proof.
  cbv zeta. unfold get_job_output_directory, Writer.mkdir_p.
  set (jd := resolve_p (join (join (match outputs_base getenv with
                                    | Some base => Path_of base
                                    | None => cwd
                                    end) "outputs") job_id)).
  assert (Ejd : match outputs_base getenv with
                | Some base => resolve_p (join (join (Path_of base) "outputs") job_id)
                | None => resolve_p (join (join cwd "outputs") job_id)
                end = jd) by (unfold jd; destruct (outputs_base getenv); reflexivity).
  rewrite Ejd.
  destruct (Writer.mkdirs Path Path_eq_dec (lineage jd) fs) as [fs1|] eqn:E.
  - split; [reflexivity|split; [|split]].
    + exact (WriterFacts.mkdirs_dir Path Path_eq_dec _ _ _ E).
    + exact (WriterFacts.mkdirs_keep Path Path_eq_dec _ _ _ E).
    + exact (mkdirs_fresh Path Path_eq_dec _ _ _ E).
  - exact (mkdirs_none_file Path Path_eq_dec _ _ E).
Qed.

End JobDirectory.

Section Pages.
Variable Path : Type.
Variable Path_eq_dec : forall p q : Path, {p = q} + {p <> q}.
Variable join : Path -> string -> Path.
Variable lineage : Path -> list Path.
Variable resolve_p : Path -> Path.
Variable utf8_encode : string -> list Byte.byte.
Hypothesis join_inj : forall d a b, join d a = join d b -> a = b.

Abbreviation save_text_to_file := (save_text_to_file Path Path_eq_dec join lineage utf8_encode).
Abbreviation save_pages := (save_pages Path Path_eq_dec join lineage utf8_encode).
Abbreviation write_pages := (write_pages Path Path_eq_dec join lineage resolve_p utf8_encode).

Lemma save_pages_keep_range raw i ts fs fs' :
  save_pages raw i ts fs = Some fs' ->
  forall q, (forall m, i <= m < i + length ts -> q <> join raw (page_filename m)) ->
  fs q <> None -> fs' q = fs q.
Proof.
  revert i fs. induction ts as [|t ts IH]; simpl; intros i fs H q Hq Hn.
  - now injection H as <-.
  - destruct (save_text_to_file raw (page_filename i) (format_page_text i t) fs)
      as [fs1|] eqn:E; [|discriminate].
    apply (WriterFacts.save_text_to_file_spec Path Path_eq_dec join lineage utf8_encode)
      in E as (_ & _ & Ho & _).
    assert (Hq1 : fs1 q = fs q) by (apply Ho; [apply Hq; lia|exact Hn]).
    rewrite (IH _ _ H q); [exact Hq1| |congruence].
    intros m Hm. apply Hq. lia.
Qed.

(** [write_pages] fails (the [OSError] of [create_subdirectories] or the
    error of [mkdir]) when a regular file sits at the resolved base
    directory, at its [raw_extract_by_page] or [chunks] subdirectory, or at
    an ancestor of one of them. *)
Theorem write_pages_blocked base texts fs p b :
  In p (lineage (resolve_p base) ++ lineage (join (resolve_p base) "raw_extract_by_page") ++
        lineage (join (resolve_p base) "chunks"))%list ->
  fs p = Some (FileE b) ->
  write_pages base texts fs = None.
Proof.
  intros Hin Hp. unfold Writer.write_pages, Writer.create_subdirectories, Writer.mkdir_p.
  apply in_app_or in Hin as [H1|Hin]; [rewrite (mkdirs_file_blocks _ _ _ _ _ _ H1 Hp); reflexivity|].
  destruct (Writer.mkdirs _ _ (lineage (resolve_p base)) fs) as [f1|] eqn:E1; [|reflexivity].
  assert (Hp1 : f1 p = Some (FileE b))
    by (rewrite (WriterFacts.mkdirs_keep _ _ _ _ _ E1); congruence).
  apply in_app_or in Hin as [H2|H3];
    [rewrite (mkdirs_file_blocks _ _ _ _ _ _ H2 Hp1); reflexivity|].
  destruct (Writer.mkdirs _ _ (lineage (join (resolve_p base) "raw_extract_by_page")) f1)
    as [f2|] eqn:E2; [|reflexivity].
  assert (Hp2 : f2 p = Some (FileE b))
    by (rewrite (WriterFacts.mkdirs_keep _ _ _ _ _ E2); congruence).
  rewrite (mkdirs_file_blocks _ _ _ _ _ _ H3 Hp2). reflexivity.
Qed.

(** A successful [write_pages] changes no existing entry other than the
    page files [page_001.txt] .. [page_<n>.txt] of the [n] pages written.
    In particular a page file with a higher number left by an earlier run
    on a longer document is kept as it was. *)
Theorem write_pages_frame base texts fs raw fs' :
  write_pages base texts fs = Some (raw, fs') ->
  (forall q, fs q <> None ->
     (forall n, 1 <= n <= length texts -> q <> join raw (page_filename n)) ->
     fs' q = fs q) /\
  (forall k c, length texts < k -> fs (join raw (page_filename k)) = Some (FileE c) ->
     fs' (join raw (page_filename k)) = Some (FileE c)).
Proof.
  unfold Writer.write_pages, Writer.create_subdirectories, Writer.mkdir_p.
  set (rb := resolve_p base).
  destruct (Writer.mkdirs _ _ (lineage rb) fs) as [f1|] eqn:E1; [|discriminate].
  destruct (Writer.mkdirs _ _ (lineage (join rb "raw_extract_by_page")) f1)
    as [f2|] eqn:E2; [|discriminate].
  destruct (Writer.mkdirs _ _ (lineage (join rb "chunks")) f2) as [f3|] eqn:E3; [|discriminate].
  destruct (save_pages (join rb "raw_extract_by_page") 1 texts f3) as [f4|] eqn:E4;
    [|discriminate].
  intros H. injection H as <- <-.
  assert (Hkeep : forall q, fs q <> None ->
     (forall n, 1 <= n <= length texts ->
        q <> join (join rb "raw_extract_by_page") (page_filename n)) -> f4 q = fs q).
  { intros q Hq Hn.
    assert (K1 : f1 q = fs q) by exact (WriterFacts.mkdirs_keep _ _ _ _ _ E1 q Hq).
    assert (K2 : f2 q = fs q)
      by (rewrite (WriterFacts.mkdirs_keep _ _ _ _ _ E2 q); congruence).
    assert (K3 : f3 q = fs q)
      by (rewrite (WriterFacts.mkdirs_keep _ _ _ _ _ E3 q); congruence).
    rewrite (save_pages_keep_range _ _ _ _ _ E4 q); [exact K3| |congruence].
    intros m Hm. apply Hn. lia. }
  split; [exact Hkeep|].
  intros k c Hk Hc.
  rewrite (Hkeep (join (join rb "raw_extract_by_page") (page_filename k))); [exact Hc|congruence|].
  intros n Hn Heq. apply join_inj, WriterFacts.page_filename_inj in Heq. lia.
Qed.

End Pages.

(** Witnesses, on paths as lists of components. *)
Definition blocking_fs : FS (list string) :=
  fun q => if WriterFacts.lpath_eq_dec q ["out"] then Some (FileE [Byte.x00]) else None.

Definition stale3_fs : FS (list string) :=
  fun q => if WriterFacts.lpath_eq_dec q ["out"; "raw_extract_by_page"; "page_003.txt"]
           then Some (FileE [Byte.x00])
           else None.

Lemma write_pages_blocked_witness :
  In ["out"] (WriterFacts.lpath_lineage ["out"; "a"] ++
              WriterFacts.lpath_lineage ["out"; "a"; "raw_extract_by_page"] ++
              WriterFacts.lpath_lineage ["out"; "a"; "chunks"])%list /\
  blocking_fs ["out"] = Some (FileE [Byte.x00]) /\
  WriterFacts.lpath_write_pages ["out"; "a"] ["hello"] blocking_fs = None.
Proof.
  assert (H1 : In ["out"] (WriterFacts.lpath_lineage ["out"; "a"] ++
              WriterFacts.lpath_lineage ["out"; "a"; "raw_extract_by_page"] ++
              WriterFacts.lpath_lineage ["out"; "a"; "chunks"])%list) by (simpl; auto).
  assert (H2 : blocking_fs ["out"] = Some (FileE [Byte.x00])) by reflexivity.
  split; [exact H1|split; [exact H2|]].
  exact (write_pages_blocked (list string) WriterFacts.lpath_eq_dec WriterFacts.lpath_join
           WriterFacts.lpath_lineage (fun p => p) WriterFacts.ascii_bytes ["out"; "a"] ["hello"]
           blocking_fs ["out"] [Byte.x00] H1 H2).
Defined.

Lemma write_pages_frame_witness :
  exists raw fs',
    WriterFacts.lpath_write_pages ["out"] ["hello"] stale3_fs = Some (raw, fs') /\
    fs' ["out"; "raw_extract_by_page"; "page_003.txt"] = Some (FileE [Byte.x00]).
Proof.
  destruct (WriterFacts.lpath_write_pages ["out"] ["hello"] stale3_fs) as [[raw fs']|] eqn:E;
    [|vm_compute in E; discriminate].
  exists raw, fs'. split; [reflexivity|].
  assert (Hraw : raw = ["out"; "raw_extract_by_page"]).
  { pose proof (f_equal (option_map fst) E) as F. vm_compute in F. congruence. }
  subst raw.
  exact (proj2 (write_pages_frame (list string) WriterFacts.lpath_eq_dec WriterFacts.lpath_join
           WriterFacts.lpath_lineage (fun p => p) WriterFacts.ascii_bytes
           WriterFacts.lpath_join_inj ["out"] ["hello"] stale3_fs _ fs' E)
           3 [Byte.x00] ltac:(simpl; lia) eq_refl).
Defined.

End WriterMore.
